(** * SVD recommender and LSI topic ranker (HW4): shallow embedding

    The notebooks [HW4/2019121004.ipynb] and [HW4/LSI and SVD Tutorial.ipynb]
    are embedded function by function.  numpy's float64 values are idealised
    as real numbers ([R]); the missing sentinel [np.nan] is [None] in a cell
    of type [option R].  Python exceptions are the [Raise] outcomes of a small
    error monad.  Library routines whose code is not part of the repository
    ([np.linalg.svd], [scipy.linalg.sqrtm], [np.argsort]) are either taken as
    section variables with the part of their contract that a proof needs
    stated as a hypothesis, or given by a definition that is documented
    where it is introduced.  Every statement below is therefore one about
    the arithmetic of the reals: rounding, overflow and underflow of float64
    are outside the model. *)

From Stdlib Require Import Reals Lra Lia ZArith.
From stdpp Require Import gmap strings list fin_maps sorting.

(** ** Python outcomes *)

Module Py.

Inductive exn : Set :=
| ValueError
| KeyError
| IndexError
| ZeroDivisionError.

Inductive outcome (A : Type) : Type :=
| Ok (a : A)
| Raise (e : exn).
Arguments Ok {A} a.
Arguments Raise {A} e.

Definition bind {A B : Type} (f : A -> outcome B) (o : outcome A) : outcome B :=
  match o with
  | Ok a => f a
  | Raise e => Raise e
  end.

(** [d[k]] on a dict: [KeyError] when the key is absent. *)
Definition getitem {V : Type} (d : gmap string V) (k : string) : outcome V :=
  match d !! k with
  | Some v => Ok v
  | None => Raise KeyError
  end.

(** [a[i]] on a sequence with a non-negative index: [IndexError] out of range. *)
Definition index {A : Type} (a : list A) (i : nat) : outcome A :=
  match a !! i with
  | Some v => Ok v
  | None => Raise IndexError
  end.

(** The upper bound of the slice [0:k] on a sequence of length [len]: a
    negative [k] counts from the end, and both ends clamp. *)
Definition slice_stop (k : Z) (len : nat) : nat :=
  if (k <? 0)%Z then Z.to_nat (Z.of_nat len + k) else Nat.min (Z.to_nat k) len.

(** [a[0:k]] *)
Definition slice0 {A : Type} (k : Z) (a : list A) : list A :=
  take (slice_stop k (length a)) a.

(** The builtin [sum]: a left fold that starts from [0]. *)
Definition sum (l : list R) : R := fold_left Rplus l 0%R.

(** [{l[i]: i for i in range(len(l))}]: later entries overwrite earlier ones. *)
Definition index_step (d : gmap string nat) (ik : nat * string) : gmap string nat :=
  <[ik.2 := ik.1]> d.

Definition index_dict (l : list string) : gmap string nat :=
  fold_left index_step (imap pair l) ∅.

(** [list(set(l))]: the distinct elements of [l].  The order in which a
    Python set lists them depends on the hashes and on the insertion order;
    the order of [elements] stands for one such order, and only the
    distinctness and the membership of the result are relied upon. *)
Definition list_set (l : list string) : list string :=
  elements (list_to_set l : gset string).

(** A [for] loop over [l] that threads the state [s] and stops at the first
    exception. *)
Fixpoint for_each {S A : Type} (body : S -> A -> outcome S) (l : list A) (s : S)
  : outcome S :=
  match l with
  | [] => Ok s
  | a :: l' => bind (for_each body l') (body s a)
  end.

(** A dict as the ordered list of its entries (keys distinct), for the places
    where the insertion order is observed. *)
Fixpoint odict_get {V : Type} (d : list (string * V)) (k : string) : outcome V :=
  match d with
  | [] => Raise KeyError
  | (k', v) :: d' => if decide (k' = k) then Ok v else odict_get d' k
  end.

(** Replace the value stored under an existing key; the key keeps its place. *)
Fixpoint odict_replace {V : Type} (d : list (string * V)) (k : string) (v : V)
  : list (string * V) :=
  match d with
  | [] => []
  | (k', v') :: d' =>
      if decide (k' = k) then (k', v) :: d' else (k', v') :: odict_replace d' k v
  end.

End Py.
Import Py.

#[global] Instance outcome_bind : MBind outcome := @Py.bind.
#[global] Instance outcome_ret : MRet outcome := @Py.Ok.

(** ** Evaluator: the two cells that define [rmse] *)

Module Evaluator.

(** [true - pred] with [true] a pandas Series and [pred] a plain list, as at
    the call [rmse(test['rating'], arr_pred)].  pandas hands the operands to
    numpy: equal lengths subtract elementwise, a one-element [pred] is
    broadcast against [true], and any other pair of lengths raises
    [ValueError] (either numpy cannot broadcast, or the broadcast result no
    longer fits the index of [true]). *)
Definition series_sub (true pred : list R) : outcome (list R) :=
  if decide (length pred = length true) then Ok (zip_with Rminus true pred)
  else match pred with
       | [p] => Ok (map (fun t => (t - p)%R) true)
       | _ => Raise ValueError
       end.

(** [sum(...)/len(...)]: the empty sum is the integer [0], and dividing it by
    the integer [0] raises. *)
Definition py_div_len (s : R) (n : nat) : outcome R :=
  if decide (n = 0) then Raise ZeroDivisionError else Ok (s / INR n)%R.

Module Cell5.
(** [def rmse(true, pred): x = true - pred; return sum([xi*xi for xi in x])/len(x)] *)
Definition rmse (true pred : list R) : outcome R :=
  x ← series_sub true pred;
  py_div_len (Py.sum (map (fun xi => (xi * xi)%R) x)) (length x).
End Cell5.

Module Cell7.
(** [def rmse(true, arr_pred): return sum([xi*xi for xi in true - arr_pred])/len(true)] *)
Definition rmse (true arr_pred : list R) : outcome R :=
  x ← series_sub true arr_pred;
  py_div_len (Py.sum (map (fun xi => (xi * xi)%R) x)) (length true).
End Cell7.

(** The sum of squared differences, written by recursion on the two
    sequences: the quantity the contract names. *)
Fixpoint sq_err_sum (true pred : list R) : R :=
  match true, pred with
  | t :: true', p :: pred' => ((t - p) * (t - p) + sq_err_sum true' pred')%R
  | _, _ => 0%R
  end.

Definition mse (true pred : list R) : R :=
  (1 / INR (length true) * sq_err_sum true pred)%R.

End Evaluator.

(** ** Imputer and truncated SVD engine: the cell that defines [svd] *)

Module SVD.

(** A matrix is the list of its rows.  [mat.shape[1]]: *)
Definition ncols {A : Type} (mat : list (list A)) : nat :=
  length (default [] (head mat)).

(** [mat[:, j]] *)
Definition column {A : Type} (j : nat) (mat : list (list A)) : list A :=
  omap (M := list) (fun row : list A => row !! j) mat.

(** The unmasked entries of a masked vector. *)
Definition compressed (c : list (option R)) : list R :=
  omap (M := list) (fun o : option R => o) c.

(** [np.mean] of a masked vector: the mean of the unmasked entries, and a
    masked result ([None]) when every entry is masked. *)
Definition ma_mean (c : list (option R)) : option R :=
  let v := compressed c in
  if decide (length v = 0) then None else Some (Py.sum v / INR (length v))%R.

(** [np.mean(arr_p, axis=0)] *)
Definition mean_axis0 (arr_p : list (list (option R))) : list (option R) :=
  map (fun j => ma_mean (column j arr_p)) (seq 0 (ncols arr_p)).

(** [arr_p.filled(fill)]: the fill vector is broadcast across the rows.  In
    a column without observed cell the mean itself is masked and the cell
    stays undefined here, whatever numpy stores under the mask. *)
Definition filled (arr_p : list (list (option R))) (fill : list (option R))
  : list (list (option R)) :=
  map (fun row =>
         zip_with (fun c f => match c with Some v => Some v | None => f end) row fill)
      arr_p.

(** [np.tile(v, (n, 1))] *)
Definition tile {A : Type} (v : list A) (n : nat) : list (list A) := replicate n v.

(** Subtraction of two cells; an undefined operand gives an undefined result. *)
Definition osub (a b : option R) : option R :=
  match a, b with
  | Some a, Some b => Some (a - b)%R
  | _, _ => None
  end.

(** [mat - x] for operands of one shape. *)
Definition mat_sub (A B : list (list (option R))) : list (list (option R)) :=
  zip_with (zip_with osub) A B.

(** The Imputer, lines 2 and 3 of [svd]: the filled matrix and the column
    mean vector that filled it. *)
Definition impute (arr_p : list (list (option R)))
  : list (list (option R)) * list (option R) :=
  (filled arr_p (mean_axis0 arr_p), mean_axis0 arr_p).

(** [mat - x], the argument of [np.linalg.svd] in line 4 of [svd]. *)
Definition centered (arr_p : list (list (option R))) : list (list (option R)) :=
  let mat := (impute arr_p).1 in
  mat_sub mat (tile (impute arr_p).2 (length mat)).

(** [np.diag(s)] for a vector [s] *)
Definition np_diag (s : list R) : list (list R) :=
  imap (fun i si => <[i := si]> (replicate (length s) 0%R)) s.

Definition vec_add (u v : list R) : list R := zip_with Rplus u v.
Definition scale (a : R) (v : list R) : list R := map (Rmult a) v.

(** The combination of the rows of [B], each of [m] entries, with the entries
    of [r] as coefficients. *)
Definition lin_comb (m : nat) (r : list R) (B : list (list R)) : list R :=
  fold_right (fun ab acc => vec_add (scale ab.1 ab.2) acc)
             (replicate m 0%R) (zip r B).

(** The row vector [r] times the matrix [B]. *)
Definition row_dot (r : list R) (B : list (list R)) : list R :=
  lin_comb (ncols B) r B.

(** The product of two matrices.  A list of rows has no column count when
    it has no row, so a product over an inner dimension [0] comes out with
    rows of length [0] where numpy gives rows of zeros: the rank [k = 0],
    and a negative [k] that leaves no component, are outside the model. *)
Definition mat_mul (A B : list (list R)) : list (list R) :=
  map (fun r => row_dot r B) A.

(** [np.dot(A, B)] on two matrices: the inner dimensions must agree. *)
Definition np_dot (A B : list (list R)) : outcome (list (list R)) :=
  if decide (Forall (fun r => length r = length B) A)
  then Ok (mat_mul A B) else Raise ValueError.

Definition oadd (a : R) (b : option R) : option R := Rplus a <$> b.

(** [ans + x] for operands of one shape, the only case that arises when the
    decomposition returns factors of the documented shapes. *)
Definition np_add (A : list (list R)) (x : list (list (option R)))
  : outcome (list (list (option R))) :=
  if decide (Forall2 (fun r r' => length r = length r') A x)
  then Ok (zip_with (zip_with oadd) A x) else Raise ValueError.

(** [U[:k, :k]]-style slices. *)
Definition slice_cols {A : Type} (k : Z) (M : list (list A)) : list (list A) :=
  map (Py.slice0 k) M.
Definition slice_rows {A : Type} (k : Z) (M : list (list A)) : list (list A) :=
  Py.slice0 k M.

Section Engine.

(** [np.linalg.svd(., full_matrices=False)] and [scipy.linalg.sqrtm]. *)
Variable linalg_svd :
  list (list (option R)) -> list (list R) * list R * list (list R).
Variable sqrtm : list (list R) -> list (list R).

Definition svd (mat : list (list (option R))) (k : Z)
  : outcome (list (list (option R))) :=
  let arr_p := mat in
  let mat := filled arr_p (mean_axis0 arr_p) in
  let x := tile (mean_axis0 arr_p) (length mat) in
  let '(U, s, V) := linalg_svd (mat_sub mat x) in
  let s := np_diag s in
  l ← np_dot (slice_cols k U) (sqrtm (slice_cols k (slice_rows k s)));
  r ← np_dot (sqrtm (slice_cols k (slice_rows k s))) (slice_rows k V);
  ans ← np_dot l r;
  np_add ans x.

End Engine.

(** *** Vocabulary of the contract *)

(** [mat] has [n] rows of [m] cells each. *)
Definition shape {A : Type} (mat : list (list A)) (n m : nat) : Prop :=
  length mat = n /\ Forall (fun row => length row = m) mat.

(** [mat] is rectangular: every row has [ncols mat] entries. *)
Definition rect {A : Type} (mat : list (list A)) : Prop :=
  Forall (fun row => length row = ncols mat) mat.

(** [mat[i, j]] *)
Definition at_ {A : Type} (mat : list (list A)) (i j : nat) : option A :=
  row ← mat !! i; row !! j.

(** Sum and number of the observed cells of column [j], row by row. *)
Fixpoint observed_sum (j : nat) (mat : list (list (option R))) : R :=
  match mat with
  | [] => 0%R
  | row :: mat' =>
      match row !! j with
      | Some (Some v) => (v + observed_sum j mat')%R
      | _ => observed_sum j mat'
      end
  end.

Fixpoint observed_count (j : nat) (mat : list (list (option R))) : nat :=
  match mat with
  | [] => 0
  | row :: mat' =>
      match row !! j with
      | Some (Some _) => S (observed_count j mat')
      | _ => observed_count j mat'
      end
  end.

Definition observed_mean (j : nat) (mat : list (list (option R))) : R :=
  (observed_sum j mat / INR (observed_count j mat))%R.

(** The mean of all [length mat] cells of column [j], for a matrix without
    missing cells. *)
Definition cell_value (j : nat) (row : list (option R)) : R :=
  match row !! j with
  | Some (Some v) => v
  | _ => 0%R
  end.

Definition column_mean (j : nat) (mat : list (list (option R))) : R :=
  (fold_right Rplus 0 (map (cell_value j) mat) / INR (length mat))%R.

(** Column [j] has an observed cell. *)
Definition observed (j : nat) (mat : list (list (option R))) : Prop :=
  exists i v, at_ mat i j = Some (Some v).

(** No cell is missing. *)
Definition dense (mat : list (list (option R))) : Prop :=
  Forall (Forall is_Some) mat.

(** The rank-[k] product [U[:, :k] . diag(s)[:k, :k] . V[:k, :]]. *)
Definition truncated_product (U : list (list R)) (s : list R) (V : list (list R))
  (k : Z) : list (list R) :=
  mat_mul (mat_mul (slice_cols k U) (slice_cols k (slice_rows k (np_diag s))))
          (slice_rows k V).

(** [P] plus the vector [mu] added to every row. *)
Definition add_row_vector (P : list (list R)) (mu : list R) : list (list R) :=
  map (fun row => vec_add row mu) P.

(** [M[i, j]] for a matrix of numbers, and [0] outside of it. *)
Definition entry (M : list (list R)) (i j : nat) : R := default 0%R (at_ M i j).

(** [f 0 + f 1 + ... + f (k - 1)] *)
Fixpoint big_sum (f : nat -> R) (k : nat) : R :=
  match k with
  | 0 => 0%R
  | S k' => (f 0%nat + big_sum (fun l => f (S l)) k')%R
  end.

(** Entry [(i, j)] of the rank-[k] reconstruction from the factors [U], [s]
    and [V]: the sum of [U[i, l] * s[l] * V[l, j]] over the first [k]
    components [l]. *)
Definition rank_k_sum (U : list (list R)) (s : list R) (V : list (list R))
  (k i j : nat) : R :=
  big_sum (fun l => entry U i l * default 0 (s !! l) * entry V l j)%R k.

(** [D] is a [k] by [k] diagonal matrix without negative entries. *)
Definition diagonal_nonneg (D : list (list R)) (k : nat) : Prop :=
  shape D k k
  /\ forall i j, i < k -> j < k ->
       (0 <= entry D i j)%R /\ (i <> j -> entry D i j = 0%R).

(** [X] is a [k] by [k] square root of [D]. *)
Definition square_root (X D : list (list R)) (k : nat) : Prop :=
  shape X k k
  /\ forall i j, i < k -> j < k ->
       big_sum (fun l => entry X i l * entry X l j)%R k = entry D i j.

(** What [svd] relies on from [scipy.linalg.sqrtm]: on a diagonal matrix
    without negative entries it returns a square root. *)
Definition sqrtm_contract (sqrtm : list (list R) -> list (list R)) : Prop :=
  forall D k, diagonal_nonneg D k -> square_root (sqrtm D) D k.

End SVD.

(** ** Rows of the ratings table *)

Record rating_row : Type := {
  userId : string;
  movieId : string;
  rating : R;
  timestamp : Z
}.

(** ** Matrix Builder: [create_utility_matrix] *)

Module MatrixBuilder.

(** A data frame: row labels, column labels and the cells row by row (what
    [np.array(X)] reads). *)
Record dataframe : Type := {
  index : list string;
  columns : list string;
  values : list (list (option R))
}.

(** [pd.DataFrame(pd_dict)]: one column per entry, in the order of the dict;
    columns of different lengths are refused. *)
Definition DataFrame (pd_dict : list (string * list (option R))) : outcome dataframe :=
  let n := length (default [] (snd <$> head pd_dict)) in
  if decide (Forall (fun kc => length kc.2 = n) pd_dict)
  then Ok {| index := [];
             columns := pd_dict.*1;
             values := map (fun i => map (fun kc => default None (kc.2 !! i)) pd_dict)
                           (seq 0 n) |}
  else Raise ValueError.

(** [X.index = labels]: the number of labels must be the number of rows. *)
Definition set_index (X : dataframe) (labels : list string) : outcome dataframe :=
  if decide (length labels = length (values X))
  then Ok {| index := labels; columns := columns X; values := values X |}
  else Raise ValueError.

(** The body of the loop: [pd_dict[item][users_index[user]] = value]. *)
Definition store (users_index : gmap string nat)
  (pd_dict : list (string * list (option R))) (row : rating_row)
  : outcome (list (string * list (option R))) :=
  let item := movieId row in
  let user := userId row in
  let value := rating row in
  col ← Py.odict_get pd_dict item;
  r ← Py.getitem users_index user;
  if decide (r < length col)
  then Ok (Py.odict_replace pd_dict item (<[r := Some value]> col))
  else Raise IndexError.

Definition create_utility_matrix (data : list rating_row)
  : outcome (dataframe * gmap string nat * gmap string nat) :=
  let userList := map userId data in
  let itemList := map movieId data in
  let users := Py.list_set userList in
  let items := Py.list_set itemList in
  let users_index := Py.index_dict users in
  let pd_dict := map (fun item => (item, replicate (length users) (@None R))) items in
  pd_dict ← Py.for_each (store users_index) data pd_dict;
  X ← DataFrame pd_dict;
  X ← set_index X users;
  let itemcols := columns X in
  let items_index := Py.index_dict itemcols in
  Ok (X, users_index, items_index).

Section AnyOrder.

(** [list(set(.))], with the order in which the set lists its elements left
    open: CPython fixes it by the hashes and the insertion order. *)
Variable list_of_set : list string -> list string.

(** [create_utility_matrix] over such a listing. *)
Definition create_utility_matrix_with (data : list rating_row)
  : outcome (dataframe * gmap string nat * gmap string nat) :=
  let userList := map userId data in
  let itemList := map movieId data in
  let users := list_of_set userList in
  let items := list_of_set itemList in
  let users_index := Py.index_dict users in
  let pd_dict := map (fun item => (item, replicate (length users) (@None R))) items in
  pd_dict ← Py.for_each (store users_index) data pd_dict;
  X ← DataFrame pd_dict;
  X ← set_index X users;
  let itemcols := columns X in
  let items_index := Py.index_dict itemcols in
  Ok (X, users_index, items_index).

End AnyOrder.

(** A listing of sets: every element once. *)
Definition lists_sets (list_of_set : list string -> list string) : Prop :=
  forall l, NoDup (list_of_set l) /\ forall x, x ∈ list_of_set l <-> x ∈ l.

(** *** Vocabulary of the contract *)

(** The value of the last observation of the pair [(u, it)] in [data]. *)
Fixpoint last_rating (u it : string) (data : list rating_row) : option R :=
  match data with
  | [] => None
  | row :: data' =>
      match last_rating u it data' with
      | Some v => Some v
      | None => if decide (userId row = u /\ movieId row = it)
                then Some (rating row) else None
      end
  end.

(** The (user, item) pair of an observation. *)
Definition pair_of (row : rating_row) : string * string := (userId row, movieId row).

(** [pd_dict[it][r]] *)
Definition cell_of (pd_dict : list (string * list (option R))) (it : string) (r : nat)
  : option (option R) :=
  match Py.odict_get pd_dict it with
  | Ok col => col !! r
  | Raise _ => None
  end.

(** [idx] maps the keys [keys] one-to-one onto [0, n). *)
Definition bijection_onto (idx : gmap string nat) (keys : list string) (n : nat) : Prop :=
  (forall k, k ∈ keys <-> is_Some (idx !! k))
  /\ (forall k i, idx !! k = Some i -> i < n)
  /\ (forall k k' i, idx !! k = Some i -> idx !! k' = Some i -> k = k')
  /\ (forall i, i < n -> exists k, idx !! k = Some i).

End MatrixBuilder.

(** ** Rating Predictor: the prediction loop *)

Module Predictor.

(** [np.mean] of a row: undefined ([nan]) when a cell is, or when the row is
    empty. *)
Definition np_mean (row : list (option R)) : option R :=
  vs ← mapM (fun c : option R => c) row;
  if decide (length vs = 0) then None else Some (Py.sum vs / INR (length vs))%R.

(** [out[r, c]] *)
Definition at_cell (out : list (list (option R))) (r c : nat) : option (option R) :=
  row ← out !! r; row !! c.

(** One iteration of [for _, ar in test.iterrows()]. *)
Definition predict_one (out : list (list (option R)))
  (users_ind movie_arr : gmap string nat)
  (arr_pred : list (option R)) (ar : rating_row) : outcome (list (option R)) :=
  match movie_arr !! movieId ar with
  | None =>
      r ← Py.getitem users_ind (userId ar);
      row ← Py.index out r;
      Ok (arr_pred ++ [np_mean row])
  | Some c =>
      r ← Py.getitem users_ind (userId ar);
      row ← Py.index out r;
      v ← Py.index row c;
      Ok (arr_pred ++ [v])
  end.

(** [arr_pred = []] followed by the loop over the held-out rows. *)
Definition predict (out : list (list (option R)))
  (users_ind movie_arr : gmap string nat) (test : list rating_row)
  : outcome (list (option R)) :=
  Py.for_each (predict_one out users_ind movie_arr) test [].

(** *** Vocabulary of the contract *)

(** The cell or row mean that the contract assigns to one held-out row. *)
Definition predicted_value (out : list (list (option R)))
  (users_ind movie_arr : gmap string nat) (ar : rating_row) : option R :=
  match users_ind !! userId ar with
  | Some r =>
      match movie_arr !! movieId ar with
      | Some c => mjoin (at_cell out r c)
      | None => np_mean (default [] (out !! r))
      end
  | None => None
  end.

(** The index maps stay within [out]: every row index has a row, and every
    column index a cell in it. *)
Definition in_range (out : list (list (option R)))
  (users_ind movie_arr : gmap string nat) : Prop :=
  forall u r, users_ind !! u = Some r ->
    exists row, out !! r = Some row
                /\ forall it c, movie_arr !! it = Some c -> c < length row.

(** The arithmetic mean of a row of defined cells. *)
Definition row_mean (vs : list R) : R :=
  (fold_right Rplus 0 vs / INR (length vs))%R.

End Predictor.

(** ** Topic Ranker: [show_topics] *)

Module TopicRanker.

Definition num_top_words : nat := 8.

(** [a[:-n-1:-1]]: the last [n] entries of [a], last first (all of [a]
    reversed when [n] is at least its length). *)
Definition last_reversed {A : Type} (n : nat) (a : list A) : list A :=
  take n (reverse a).

Section Ranker.

(** [np.argsort] (ascending, default kind) and the globals [vocab] and
    [num_top_words] that [show_topics] reads. *)
Variable argsort : list R -> list nat.
Variable vocab : list string.
Variable n_top : nat.

Definition top_words (t : list R) : outcome (list string) :=
  mapM (fun i => Py.index vocab i) (last_reversed n_top (argsort t)).

Definition show_topics (a : list (list R)) : outcome (list string) :=
  topic_words ← mapM top_words a;
  Ok (map (String.concat " ") topic_words).

End Ranker.

(** [t[i]] *)
Definition weight (t : list R) (i : nat) : R := nth i t 0%R.

(** One function that meets the contract of [np.argsort]: an insertion sort,
    in which an entry moves left only past strictly greater ones, so that
    equal weights keep their original order.  numpy's default sort promises
    no order among equal weights and does not always keep the original one;
    what holds for every [argsort] is stated over [argsort_contract], and
    the order of ties only under the hypothesis [stable]. *)
Fixpoint insert_index (t : list R) (i : nat) (sorted : list nat) : list nat :=
  match sorted with
  | [] => [i]
  | j :: sorted' =>
      if Rlt_dec (weight t i) (weight t j)
      then i :: j :: sorted'
      else j :: insert_index t i sorted'
  end.

Definition insertion_argsort (t : list R) : list nat :=
  fold_left (fun sorted i => insert_index t i sorted) (seq 0 (length t)) [].

(** *** Vocabulary of the contract *)

Definition by_weight (t : list R) (i j : nat) : Prop :=
  (weight t i <= weight t j)%R.

(** [a] lists every index of [t] once, by ascending weight. *)
Definition argsort_contract (a : list nat) (t : list R) : Prop :=
  a ≡ₚ seq 0 (length t)
  /\ forall p q i j, p < q -> a !! p = Some i -> a !! q = Some j ->
                     (weight t i <= weight t j)%R.

(** [a] keeps indices of equal weight in ascending order (a stable sort). *)
Definition stable (a : list nat) (t : list R) : Prop :=
  forall p q i j, p < q -> a !! p = Some i -> a !! q = Some j ->
                  weight t i = weight t j -> i < j.

(** Ascending weight, and ascending index among equal weights. *)
Definition by_weight_then_index (t : list R) (i j : nat) : Prop :=
  (weight t i < weight t j)%R \/ (weight t i = weight t j /\ i < j).

(** Among selected indices of equal weight the smaller index comes first. *)
Definition ties_ascending (t : list R) (sel : list nat) : Prop :=
  forall p q i j, p < q -> sel !! p = Some i -> sel !! q = Some j ->
                  weight t i = weight t j -> i < j.

End TopicRanker.

(** ** Train and test split: the loop over the users *)

Module Split.

(** [data['userId'].unique()]: the distinct values, in the order in which
    they first appear. *)
Fixpoint unique_from (seen l : list string) : list string :=
  match l with
  | [] => []
  | x :: l' =>
      if decide (x ∈ seen) then unique_from seen l'
      else x :: unique_from (x :: seen) l'
  end.

Definition unique (l : list string) : list string := unique_from [] l.

(** [int(test_ratio * n)] with [test_ratio = 0.2]: the float product
    truncates to the quotient of [n] by [5] (for every [n] below [10^15]). *)
Definition test_size (n : nat) : nat := n / 5.

(** [temp.iloc[a:]]; the start of a slice is clamped like its stop. *)
Definition iloc_from {A : Type} (a : Z) (temp : list A) : list A :=
  drop (Py.slice_stop a (length temp)) temp.

(** [temp.iloc[:b]] *)
Definition iloc_to {A : Type} (b : Z) (temp : list A) : list A :=
  Py.slice0 b temp.

(** The order of [sort_values('timestamp')]. *)
Definition by_timestamp (a b : rating_row) : Prop :=
  (timestamp a <= timestamp b)%Z.

#[global] Instance by_timestamp_dec (a b : rating_row) : Decision (by_timestamp a b).
Proof. unfold by_timestamp. apply _. Defined.

Section Loop.

(** [temp.sort_values('timestamp')]; pandas does not fix the order of rows
    with equal timestamps. *)
Variable sort_values : list rating_row -> list rating_row.

(** The body of the loop from [n = len(temp)] on: the pair
    [(dummy_test, dummy_train)]. *)
Definition split_user (temp : list rating_row) : list rating_row * list rating_row :=
  let n := length temp in
  let test_size := test_size n in
  let temp := sort_values temp in
  let dummy_test := iloc_from (Z.of_nat n - 1 - Z.of_nat test_size) temp in
  let dummy_train := iloc_to (Z.of_nat n - 2 - Z.of_nat test_size) temp in
  (dummy_test, dummy_train).

(** One iteration of [for u in users]; the state is [(test, train)]. *)
Definition split_step (data : list rating_row)
  (acc : list rating_row * list rating_row) (u : string)
  : list rating_row * list rating_row :=
  let temp := filter (fun row => userId row = u) data in
  let '(dummy_test, dummy_train) := split_user temp in
  (acc.1 ++ dummy_test, acc.2 ++ dummy_train).

(** The two empty frames, then the loop: the pair [(test, train)]. *)
Definition train_test_split (data : list rating_row)
  : list rating_row * list rating_row :=
  let users := unique (map userId data) in
  fold_left (split_step data) users ([], []).

End Loop.

(** *** Vocabulary of the properties *)

(** The rows of user [u]. *)
Definition rows_of (u : string) (data : list rating_row) : list rating_row :=
  filter (fun row => userId row = u) data.

(** A sort by timestamp: a rearrangement in ascending order. *)
Definition sorts (sort_values : list rating_row -> list rating_row) : Prop :=
  (forall l, sort_values l ≡ₚ l)
  /\ (forall l, StronglySorted by_timestamp (sort_values l)).

End Split.

(** ** Concrete inputs *)

Module Scenario.

(** A held-out row of a user that the user index map does not know. *)
Definition held_out_stranger : list rating_row :=
  [ {| userId := "5"; movieId := "10"; rating := 3; timestamp := 1 |};
    {| userId := "9"; movieId := "10"; rating := 4; timestamp := 2 |} ]%R.

(** Three users, four items, one missing cell (second user, third item). *)
Definition three_by_four : list (list (option R)) :=
  [ [Some 1; Some 2; Some 3; Some 4];
    [Some 5; Some 6; None; Some 8];
    [Some 9; Some 10; Some 11; Some 12] ]%R.

(** Four users, two items, no missing cell; the centered matrix is
    [u1 * 5 * v1] with [u1 = (1/2, 1/2, -1/2, -1/2)] and [v1 = (3/5, 4/5)]. *)
(** Six ratings of user ["1"], two of user ["5"], in file order. *)
Definition ratings : list rating_row :=
  [ {| userId := "1"; movieId := "10"; rating := 5; timestamp := 30 |};
    {| userId := "1"; movieId := "32"; rating := 4; timestamp := 10 |};
    {| userId := "5"; movieId := "10"; rating := 2; timestamp := 12 |};
    {| userId := "1"; movieId := "34"; rating := 3; timestamp := 20 |};
    {| userId := "1"; movieId := "47"; rating := 1; timestamp := 60 |};
    {| userId := "5"; movieId := "32"; rating := 4; timestamp := 11 |};
    {| userId := "1"; movieId := "50"; rating := 2; timestamp := 50 |};
    {| userId := "1"; movieId := "2"; rating := 3; timestamp := 40 |} ]%R.

(** The same pair rated twice. *)
Definition rated_twice : list rating_row :=
  [ {| userId := "1"; movieId := "10"; rating := 5; timestamp := 0 |};
    {| userId := "5"; movieId := "32"; rating := 4; timestamp := 1 |};
    {| userId := "1"; movieId := "10"; rating := 3; timestamp := 2 |} ]%R.

Definition held_out : list rating_row :=
  [ {| userId := "5"; movieId := "unseen_item"; rating := 4; timestamp := 0 |};
    {| userId := "5"; movieId := "10"; rating := 3; timestamp := 1 |} ]%R.
Definition two_users : gmap string nat := {[ "1" := 0; "5" := 1 ]}.
Definition two_movies : gmap string nat := {[ "10" := 0; "32" := 1 ]}.
Definition reconstruction : list (list (option R)) :=
  [ [Some 5; Some 3]; [Some 2; Some 4] ]%R.

Definition four_by_two : list (list (option R)) :=
  [ [Some 3; Some 4]; [Some 3; Some 4]; [Some 0; Some 0]; [Some 0; Some 0] ]%R.

Definition four_by_two_U : list (list R) :=
  [ [1/2; 1/2]; [1/2; -1/2]; [-1/2; 1/2]; [-1/2; -1/2] ]%R.
Definition four_by_two_s : list R := [5; 0]%R.
Definition four_by_two_V : list (list R) :=
  [ [3/5; 4/5]; [4/5; -3/5] ]%R.

(** The thin decomposition of the centered [four_by_two]. *)
Definition four_by_two_svd (_ : list (list (option R)))
  : list (list R) * list R * list (list R) :=
  (four_by_two_U, four_by_two_s, four_by_two_V).

(** The principal square root of a diagonal matrix without negative entries:
    the square roots of its entries. *)
Definition diagonal_sqrtm (D : list (list R)) : list (list R) :=
  map (map sqrt) D.

End Scenario.

(** * Properties *)

(** ** Python outcomes *)

Module PyFacts.

Lemma sum_from (l : list R) (a : R) :
  fold_left Rplus l a = (a + fold_right Rplus 0 l)%R.
Proof.
  revert a. induction l as [|x l IH]; intros a; simpl.
  - lra.
  - rewrite IH. lra.
Qed.

Lemma sum_fold_right (l : list R) : Py.sum l = fold_right Rplus 0%R l.
Proof. unfold Py.sum. rewrite sum_from. lra. Qed.

Lemma sum_cons (x : R) (l : list R) : Py.sum (x :: l) = (x + Py.sum l)%R.
Proof. rewrite !sum_fold_right. reflexivity. Qed.

Lemma sum_nil : Py.sum [] = 0%R.
Proof. reflexivity. Qed.

Lemma bind_ok {A B : Type} (f : A -> outcome B) (a : A) : Ok a ≫= f = f a.
Proof. reflexivity. Qed.

End PyFacts.

Create Rewrite HintDb pysum.
#[global] Hint Rewrite PyFacts.sum_cons PyFacts.sum_nil : pysum.

(** ** Evaluator *)

Module EvaluatorFacts.
Import Evaluator.

Lemma series_sub_same_length (true pred : list R) :
  length true = length pred ->
  series_sub true pred = Ok (zip_with Rminus true pred).
Proof.
  intros Hlen. unfold series_sub.
  destruct (decide (length pred = length true)); [reflexivity | congruence].
Qed.

Lemma series_sub_length (true pred x : list R) :
  series_sub true pred = Ok x -> length x = length true.
Proof.
  unfold series_sub. destruct (decide (length pred = length true)) as [Hlen|Hlen].
  - intros [= <-]. rewrite length_zip_with. lia.
  - destruct pred as [|p [|q pred]]; intros [= <-]. apply length_map.
Qed.

Lemma sum_squares_zip (true pred : list R) :
  length true = length pred ->
  Py.sum (map (fun xi => (xi * xi)%R) (zip_with Rminus true pred))
  = sq_err_sum true pred.
Proof.
  revert pred. induction true as [|t true IH]; intros [|p pred] Hlen;
    simpl in *; try discriminate; autorewrite with pysum; [reflexivity|].
  rewrite IH by lia. reflexivity.
Qed.

Lemma div_len_positive (s : R) (n : nat) :
  0 < n -> py_div_len s n = Ok (1 / INR n * s)%R.
Proof.
  intros Hn. unfold py_div_len. destruct (decide (n = 0)); [lia|].
  f_equal. unfold Rdiv. lra.
Qed.

Lemma rmse_cells_agree (true pred : list R) :
  Cell5.rmse true pred = Cell7.rmse true pred.
Proof.
  unfold Cell5.rmse, Cell7.rmse.
  destruct (series_sub true pred) as [x|e] eqn:Hsub; [|reflexivity].
  simpl. unfold Py.bind. by rewrite (series_sub_length _ _ _ Hsub).
Qed.

(** C2.  On two sequences of one positive length [N] both definitions of
    [rmse] return [(1/N) * sum (true_i - pred_i)^2], with no square root; on
    [[1,2,3]] against itself the result is [0], on [[0,0]] against [[1,1]]
    it is [1]. *)
Theorem rmse_mean_squared_error :
  (forall true pred : list R,
      length true = length pred -> 0 < length true ->
      Cell5.rmse true pred = Ok (mse true pred)
      /\ Cell7.rmse true pred = Ok (mse true pred))
  /\ Cell7.rmse [1; 2; 3]%R [1; 2; 3]%R = Ok 0%R
  /\ Cell7.rmse [0; 0]%R [1; 1]%R = Ok 1%R.
Proof.
  assert (Hgen : forall true pred : list R,
             length true = length pred -> 0 < length true ->
             Cell7.rmse true pred = Ok (mse true pred)).
  { intros true pred Hlen Hpos. unfold Cell7.rmse.
    rewrite series_sub_same_length by done. rewrite PyFacts.bind_ok.
    rewrite sum_squares_zip by done. by apply div_len_positive. }
  split; [|split].
  - intros true pred Hlen Hpos. rewrite rmse_cells_agree. split; by apply Hgen.
  - rewrite Hgen by (simpl; lia). f_equal. unfold mse. simpl. lra.
  - rewrite Hgen by (simpl; lia). f_equal. unfold mse. simpl. lra.
Qed.

Lemma rmse_mean_squared_error_witness :
  Cell5.rmse [4; 1]%R [2; 2]%R = Ok (mse [4; 1]%R [2; 2]%R)
  /\ Cell7.rmse [4; 1]%R [2; 2]%R = Ok (mse [4; 1]%R [2; 2]%R).
Proof.
  apply (proj1 rmse_mean_squared_error [4; 1]%R [2; 2]%R); simpl; lia.
Defined.

(** C5, as stated, fails: a one-element prediction list is broadcast against
    a longer true sequence and a value is returned. *)
Lemma rmse_length_mismatch_broadcast :
  length [1; 2; 3]%R <> length [5]%R
  /\ Cell7.rmse [1; 2; 3]%R [5]%R = Ok (29 / 3)%R.
Proof.
  split; [simpl; lia|].
  unfold Cell7.rmse, series_sub. simpl. unfold Py.bind, py_div_len. simpl.
  f_equal. unfold Py.sum. simpl. lra.
Qed.

Lemma sum_squares_constant (true : list R) (c : R) :
  Py.sum (map (fun xi => (xi * xi)%R) (map (fun t => (t - c)%R) true))
  = sq_err_sum true (replicate (length true) c).
Proof.
  induction true as [|t true IH]; simpl; autorewrite with pysum; [done|].
  by rewrite IH.
Qed.

(** C5, amended.  On two sequences of different lengths: when the predicted
    one does not have exactly one element, [rmse] raises [ValueError]; when
    it has exactly one element [c], that element is broadcast, and [rmse]
    returns the mean of the [(true_i - c)^2] on a non-empty true sequence
    and raises [ZeroDivisionError] on an empty one. *)
Theorem rmse_length_mismatch (true pred : list R) :
  length pred <> length true ->
  (length pred <> 1 ->
   Cell5.rmse true pred = Raise ValueError
   /\ Cell7.rmse true pred = Raise ValueError)
  /\ (forall c, pred = [c] ->
      (true <> [] ->
       Cell5.rmse true pred = Ok (mse true (replicate (length true) c))
       /\ Cell7.rmse true pred = Ok (mse true (replicate (length true) c)))
      /\ (true = [] ->
          Cell5.rmse true pred = Raise ZeroDivisionError
          /\ Cell7.rmse true pred = Raise ZeroDivisionError)).
Proof.
  intros Hne. rewrite rmse_cells_agree. split.
  - intros H1.
    assert (Hsub : series_sub true pred = Raise ValueError).
    { unfold series_sub. destruct (decide (length pred = length true)); [done|].
      destruct pred as [|p [|q pred]]; simpl in *; done. }
    unfold Cell7.rmse. rewrite Hsub. done.
  - intros c ->.
    assert (Hsub : series_sub true [c] = Ok (map (fun t => (t - c)%R) true)).
    { unfold series_sub. by destruct (decide (length [c] = length true)). }
    unfold Cell7.rmse. rewrite Hsub, PyFacts.bind_ok, sum_squares_constant. split.
    + intros Htrue. rewrite div_len_positive; [done|].
      destruct true; [done | simpl; lia].
    + by intros ->.
Qed.

Lemma rmse_length_mismatch_witness :
  (Cell5.rmse [1; 2; 3]%R [1; 2]%R = Raise ValueError
   /\ Cell7.rmse [1; 2; 3]%R [1; 2]%R = Raise ValueError)
  /\ (Cell5.rmse [1; 2; 3]%R [5]%R = Ok (mse [1; 2; 3]%R (replicate 3 5%R))
      /\ Cell7.rmse [1; 2; 3]%R [5]%R = Ok (mse [1; 2; 3]%R (replicate 3 5%R)))
  /\ (Cell5.rmse [] [5]%R = Raise ZeroDivisionError
      /\ Cell7.rmse [] [5]%R = Raise ZeroDivisionError).
Proof.
  split; [|split].
  - apply (rmse_length_mismatch [1; 2; 3]%R [1; 2]%R); simpl; lia.
  - destruct (rmse_length_mismatch [1; 2; 3]%R [5]%R) as [_ Hone]; [simpl; lia|].
    by apply (Hone 5%R eq_refl).
  - destruct (rmse_length_mismatch [] [5]%R) as [_ Hone]; [simpl; lia|].
    by apply (Hone 5%R eq_refl).
Defined.

(** C9, as stated, fails: no pair of equal-length sequences separates the two
    definitions. *)
Lemma rmse_definitions_not_separated :
  ~ exists true pred : list R,
      length true = length pred /\ Cell5.rmse true pred <> Cell7.rmse true pred.
Proof.
  intros (true & pred & _ & Hne). apply Hne, rmse_cells_agree.
Qed.

(** C9, amended.  On every pair of equal-length sequences the first and the
    second definition of [rmse] return the same result. *)
Theorem rmse_definitions_agree (true pred : list R) :
  length true = length pred -> Cell5.rmse true pred = Cell7.rmse true pred.
Proof.
  intros Hlen. unfold Cell5.rmse, Cell7.rmse.
  rewrite series_sub_same_length by done. rewrite !PyFacts.bind_ok.
  rewrite length_zip_with, <- Hlen. by rewrite Nat.min_id.
Qed.

Lemma rmse_definitions_agree_witness :
  Cell5.rmse [0; 0]%R [1; 1]%R = Cell7.rmse [0; 0]%R [1; 1]%R.
Proof. apply rmse_definitions_agree. reflexivity. Defined.

End EvaluatorFacts.

(** ** Imputer *)

Module ImputerFacts.
Import SVD.

Lemma at_cons_0 {A : Type} (row : list A) (mat : list (list A)) (j : nat) :
  at_ (row :: mat) 0 j = row !! j.
Proof. reflexivity. Qed.

Lemma at_cons_S {A : Type} (row : list A) (mat : list (list A)) (i j : nat) :
  at_ (row :: mat) (S i) j = at_ mat i j.
Proof. reflexivity. Qed.

Lemma at_Some {A : Type} (mat : list (list A)) (i j : nat) (c : A) :
  at_ mat i j = Some c <-> exists row, mat !! i = Some row /\ row !! j = Some c.
Proof.
  unfold at_. destruct (mat !! i) as [row|]; simpl.
  - split; [eauto | by intros (? & [= <-] & ?)].
  - split; [done | by intros (? & ? & ?)].
Qed.

Lemma shape_cons {A : Type} (row : list A) (mat : list (list A)) (n m : nat) :
  shape (row :: mat) n m <-> exists n', n = S n' /\ length row = m /\ shape mat n' m.
Proof.
  unfold shape. simpl. rewrite Forall_cons. split.
  - intros (<- & Hrow & Hmat). eauto.
  - intros (n' & -> & Hrow & Hlen & Hmat). auto.
Qed.

Lemma shape_lookup {A : Type} (mat : list (list A)) (n m i : nat) (row : list A) :
  shape mat n m -> mat !! i = Some row -> length row = m.
Proof.
  intros [_ Hrows] Hi. rewrite Forall_lookup in Hrows. eauto.
Qed.

Lemma shape_ncols {A : Type} (mat : list (list A)) (n m : nat) :
  shape mat n m -> 0 < n -> ncols mat = m.
Proof.
  intros [Hn Hrows] Hpos. destruct mat as [|row mat]; simpl in *; [lia|].
  unfold ncols. simpl. by inversion Hrows.
Qed.

Lemma column_cons {A : Type} (j : nat) (row : list A) (mat : list (list A)) :
  column j (row :: mat)
  = match row !! j with Some c => c :: column j mat | None => column j mat end.
Proof. reflexivity. Qed.

Lemma compressed_cons (c : option R) (l : list (option R)) :
  compressed (c :: l)
  = match c with Some v => v :: compressed l | None => compressed l end.
Proof. reflexivity. Qed.

Lemma compressed_column_sum (j : nat) (mat : list (list (option R))) :
  Py.sum (compressed (column j mat)) = observed_sum j mat.
Proof.
  induction mat as [|row mat IH]; [reflexivity|].
  rewrite column_cons. simpl.
  destruct (row !! j) as [[v|]|]; rewrite ?compressed_cons, ?PyFacts.sum_cons, ?IH; done.
Qed.

Lemma compressed_column_length (j : nat) (mat : list (list (option R))) :
  length (compressed (column j mat)) = observed_count j mat.
Proof.
  induction mat as [|row mat IH]; [reflexivity|].
  rewrite column_cons. simpl.
  destruct (row !! j) as [[v|]|]; rewrite ?compressed_cons; simpl; rewrite ?IH; done.
Qed.

Lemma observed_count_pos (j : nat) (mat : list (list (option R))) :
  observed j mat <-> 0 < observed_count j mat.
Proof.
  unfold observed. induction mat as [|row mat IH]; simpl.
  - split; [by intros ([|?] & ? & ?) | lia].
  - split.
    + intros ([|i] & v & Hv).
      * rewrite at_cons_0 in Hv. rewrite Hv. lia.
      * rewrite at_cons_S in Hv.
        assert (0 < observed_count j mat) by (apply IH; eauto).
        destruct (row !! j) as [[?|]|]; lia.
    + destruct (row !! j) as [[v|]|] eqn:Hrow.
      * intros _. exists 0, v. by rewrite at_cons_0.
      * intros (i & v & Hv)%IH. exists (S i), v. by rewrite at_cons_S.
      * intros (i & v & Hv)%IH. exists (S i), v. by rewrite at_cons_S.
Qed.

Lemma ma_mean_observed (j : nat) (mat : list (list (option R))) :
  observed j mat -> ma_mean (column j mat) = Some (observed_mean j mat).
Proof.
  intros Hobs%observed_count_pos. unfold ma_mean, observed_mean. simpl.
  rewrite compressed_column_length, compressed_column_sum.
  destruct (decide (observed_count j mat = 0)); [lia | done].
Qed.

Lemma mean_axis0_lookup (mat : list (list (option R))) (j : nat) :
  j < ncols mat -> mean_axis0 mat !! j = Some (ma_mean (column j mat)).
Proof.
  intros Hj. unfold mean_axis0. rewrite list_lookup_fmap, lookup_seq_lt by done.
  reflexivity.
Qed.

Lemma length_mean_axis0 (mat : list (list (option R))) :
  length (mean_axis0 mat) = ncols mat.
Proof. unfold mean_axis0. by rewrite length_map, length_seq. Qed.

Lemma observed_rows (j : nat) (mat : list (list (option R))) :
  observed j mat -> 0 < length mat.
Proof.
  intros (i & v & (row & Hi & _)%at_Some). apply lookup_lt_Some in Hi. lia.
Qed.

(** The column means of a matrix whose columns are all observed. *)
Lemma mean_axis0_observed (mat : list (list (option R))) (n m : nat) :
  shape mat n m -> (forall j, j < m -> observed j mat) ->
  mean_axis0 mat = map (fun j => Some (observed_mean j mat)) (seq 0 m).
Proof.
  intros Hshape Hobs. destruct (decide (m = 0)) as [->|Hm].
  - apply list_eq. intros j. simpl. apply lookup_ge_None_2.
    rewrite length_mean_axis0. destruct Hshape as [_ Hrows].
    unfold ncols. destruct mat as [|row mat]; simpl; [lia|].
    inversion Hrows; lia.
  - assert (Hn : 0 < n).
    { destruct Hshape as [<- _]. apply (observed_rows 0), Hobs. lia. }
    unfold mean_axis0. rewrite (shape_ncols _ _ _ Hshape Hn).
    apply list_eq. intros j. rewrite !list_lookup_fmap.
    destruct (seq 0 m !! j) as [j'|] eqn:Hj; [|done]. simpl.
    apply lookup_seq in Hj as [Hj' Hj]. simpl in Hj'. subst j'.
    f_equal. by apply ma_mean_observed, Hobs.
Qed.

Lemma filled_at (mat : list (list (option R))) (fill : list (option R))
  (n m i j : nat) (c f : option R) :
  shape mat n m -> at_ mat i j = Some c -> fill !! j = Some f ->
  at_ (filled mat fill) i j = Some (match c with Some v => Some v | None => f end).
Proof.
  intros Hshape (row & Hi & Hj)%at_Some Hf. apply at_Some.
  exists (zip_with (fun c f => match c with Some v => Some v | None => f end) row fill).
  split.
  - unfold filled. by rewrite list_lookup_fmap, Hi.
  - rewrite lookup_zip_with, Hj. simpl. by rewrite Hf.
Qed.

Lemma filled_shape (mat : list (list (option R))) (fill : list (option R))
  (n m : nat) :
  shape mat n m -> length fill = m -> shape (filled mat fill) n m.
Proof.
  intros [Hn Hrows] Hfill. split; unfold filled.
  - by rewrite length_map.
  - apply List.Forall_map. eapply Forall_impl; [exact Hrows|].
    intros row Hrow. simpl in *. rewrite length_zip_with. lia.
Qed.

Lemma filled_dense_id (mat : list (list (option R))) (fill : list (option R))
  (n m : nat) :
  shape mat n m -> length fill = m -> dense mat -> filled mat fill = mat.
Proof.
  intros Hshape Hfill Hdense. apply list_eq. intros i. unfold filled.
  rewrite list_lookup_fmap. destruct (mat !! i) as [row|] eqn:Hi; [|done].
  simpl. f_equal. apply list_eq. intros j. rewrite lookup_zip_with.
  pose proof (shape_lookup _ _ _ _ _ Hshape Hi) as Hlen.
  destruct (row !! j) as [c|] eqn:Hj; [|done]. simpl.
  assert (is_Some (fill !! j)) as [f ->].
  { apply lookup_lt_is_Some. apply lookup_lt_Some in Hj. lia. }
  simpl. unfold dense in Hdense. rewrite Forall_lookup in Hdense.
  specialize (Hdense _ _ Hi). rewrite Forall_lookup in Hdense.
  by destruct (Hdense _ _ Hj) as [v ->].
Qed.

Lemma dense_observed (j : nat) (mat : list (list (option R))) (n m : nat) :
  shape mat n m -> dense mat -> j < m ->
  observed_sum j mat
  = fold_right Rplus 0%R (map (cell_value j) mat)
  /\ observed_count j mat = length mat.
Proof.
  intros [_ Hrows] Hdense Hj. unfold dense in Hdense.
  induction mat as [|row mat IH]; [done|].
  inversion Hrows as [|? ? Hrow Hrows']; subst.
  inversion Hdense as [|? ? Hd Hdense']; subst.
  destruct (IH Hrows' Hdense') as [IHs IHc]. simpl.
  assert (is_Some (row !! j)) as [c Hc] by (apply lookup_lt_is_Some; lia).
  rewrite Forall_lookup in Hd. destruct (Hd _ _ Hc) as [v ->].
  unfold cell_value at 1. rewrite Hc. simpl. rewrite IHs, IHc. done.
Qed.

Lemma impute_cell (mat : list (list (option R))) (n m : nat) :
  shape mat n m -> (forall j, j < m -> observed j mat) ->
  forall i j c, at_ mat i j = Some c ->
    at_ (filled mat (mean_axis0 mat)) i j
    = Some (Some (match c with Some v => v | None => observed_mean j mat end)).
Proof.
  intros Hshape Hobs i j c Hc.
  pose proof (mean_axis0_observed _ _ _ Hshape Hobs) as Hmu.
  assert (Hj : j < m).
  { apply at_Some in Hc as (row & Hi & Hj).
    rewrite <- (shape_lookup _ _ _ _ _ Hshape Hi). by apply lookup_lt_Some in Hj. }
  erewrite filled_at; [|exact Hshape|exact Hc|].
  2:{ rewrite Hmu, list_lookup_fmap, lookup_seq_lt by done. reflexivity. }
  by destruct c.
Qed.

Lemma mat_sub_at (A B : list (list (option R))) (i j : nat) (a b : option R) :
  at_ A i j = Some a -> at_ B i j = Some b ->
  at_ (mat_sub A B) i j = Some (osub a b).
Proof.
  intros (ra & Hra & Ha)%at_Some (rb & Hrb & Hb)%at_Some. apply at_Some.
  exists (zip_with osub ra rb). split.
  - unfold mat_sub. by rewrite lookup_zip_with, Hra, Hrb.
  - by rewrite lookup_zip_with, Ha, Hb.
Qed.

Lemma tile_at {A : Type} (v : list A) (n i j : nat) :
  i < n -> at_ (tile v n) i j = v !! j.
Proof.
  intros Hi. unfold at_, tile. by rewrite lookup_replicate_2.
Qed.

Ltac three_by_four_hyps :=
  match goal with
  | |- shape _ _ _ => split; [reflexivity | repeat constructor]
  | |- forall j, j < _ -> observed j _ =>
      let j := fresh "j" in
      let Hj := fresh "Hj" in
      intros j Hj;
      do 4 (destruct j as [|j]; [by eexists 0, _|]); lia
  end.

(** C7.  On an [n] by [m] matrix each of whose columns has an observed cell,
    the Imputer returns a matrix of the same shape without missing cells, in
    which an observed cell is unchanged and a missing cell holds the mean of
    the observed cells of its column, together with the vector of these
    means; a matrix without missing cells is returned unchanged and the
    vector then holds the means of the whole columns. *)
Theorem impute_column_means (mat : list (list (option R))) (n m : nat) :
  shape mat n m ->
  (forall j, j < m -> observed j mat) ->
  shape (impute mat).1 n m
  /\ dense (impute mat).1
  /\ (forall i j v, at_ mat i j = Some (Some v) ->
                    at_ (impute mat).1 i j = Some (Some v))
  /\ (forall i j, at_ mat i j = Some None ->
                  at_ (impute mat).1 i j = Some (Some (observed_mean j mat)))
  /\ (impute mat).2 = map (fun j => Some (observed_mean j mat)) (seq 0 m)
  /\ (dense mat ->
      (impute mat).1 = mat
      /\ (impute mat).2 = map (fun j => Some (column_mean j mat)) (seq 0 m)).
Proof.
  intros Hshape Hobs. unfold impute. simpl.
  pose proof (mean_axis0_observed _ _ _ Hshape Hobs) as Hmu.
  assert (Hlen : length (mean_axis0 mat) = m).
  { by rewrite Hmu, length_map, length_seq. }
  pose proof (impute_cell _ _ _ Hshape Hobs) as Hcell.
  pose proof (filled_shape _ _ _ _ Hshape Hlen) as HFshape.
  repeat split; try done.
  - apply HFshape.
  - apply HFshape.
  - unfold dense. apply Forall_lookup. intros i row' Hi.
    apply Forall_lookup. intros j c' Hj.
    assert (HF : at_ (filled mat (mean_axis0 mat)) i j = Some c').
    { apply at_Some. eauto. }
    assert (is_Some (at_ mat i j)) as [c Hc].
    { unfold filled in Hi. rewrite list_lookup_fmap in Hi.
      destruct (mat !! i) as [row|] eqn:Hrow; [|done]. simpl in Hi.
      injection Hi as <-. rewrite lookup_zip_with in Hj.
      destruct (row !! j) as [c|] eqn:Hc; [|done].
      exists c. apply at_Some. eauto. }
    rewrite (Hcell _ _ _ Hc) in HF. injection HF as <-. eauto.
  - intros i j v Hv. by rewrite (Hcell _ _ _ Hv).
  - intros i j Hv. by rewrite (Hcell _ _ _ Hv).
  - by apply (filled_dense_id _ _ n m).
  - rewrite Hmu. apply map_ext_in. intros j Hj%in_seq. f_equal.
    destruct (dense_observed j _ _ _ Hshape H) as [Hs Hc]; [lia|].
    unfold observed_mean, column_mean. by rewrite Hs, Hc.
Qed.

Lemma impute_column_means_witness :
  at_ (impute Scenario.three_by_four).1 1 2
  = Some (Some (observed_mean 2 Scenario.three_by_four))
  /\ observed_mean 2 Scenario.three_by_four = ((3 + 11) / 2)%R.
Proof.
  split.
  - destruct (impute_column_means Scenario.three_by_four 3 4)
      as (_ & _ & _ & Hmissing & _); [three_by_four_hyps..|].
    by apply Hmissing.
  - unfold observed_mean. simpl. lra.
Defined.

(** C10.  On an [n] by [m] matrix each of whose columns has an observed
    cell, every cell that is missing in the input holds exactly [0] in the
    centered matrix that [svd] passes to the decomposition. *)
Theorem centered_missing_is_zero (mat : list (list (option R))) (n m : nat) :
  shape mat n m ->
  (forall j, j < m -> observed j mat) ->
  forall i j, at_ mat i j = Some None ->
    at_ (centered mat) i j = Some (Some 0%R).
Proof.
  intros Hshape Hobs i j Hmissing. unfold centered, impute. simpl.
  pose proof (impute_cell _ _ _ Hshape Hobs _ _ _ Hmissing) as HF.
  assert (Hi : i < length (filled mat (mean_axis0 mat))).
  { apply at_Some in HF as (row & Hrow & _). by apply lookup_lt_Some in Hrow. }
  assert (Hj : j < m).
  { apply at_Some in Hmissing as (row & Hrow & Hc).
    rewrite <- (shape_lookup _ _ _ _ _ Hshape Hrow). by apply lookup_lt_Some in Hc. }
  erewrite mat_sub_at; [|exact HF|].
  2:{ rewrite tile_at by done.
      rewrite (mean_axis0_observed _ _ _ Hshape Hobs).
      rewrite list_lookup_fmap, lookup_seq_lt by done. reflexivity. }
  simpl. do 2 f_equal. lra.
Qed.

Lemma centered_missing_is_zero_witness :
  at_ (centered Scenario.three_by_four) 1 2 = Some (Some 0%R).
Proof.
  apply (centered_missing_is_zero Scenario.three_by_four 3 4);
    [three_by_four_hyps.. | reflexivity].
Defined.

End ImputerFacts.

(** ** Matrix products on lists of rows *)

Module MatrixFacts.
Import SVD.

Ltac vec_ext :=
  apply list_eq; intros ?; unfold vec_add, scale;
  repeat (rewrite ?lookup_zip_with, ?list_lookup_fmap);
  repeat match goal with
         | |- context [?l !! ?j] =>
             is_var l; let o := fresh "o" in
             destruct (l !! j) as [o|]; simpl
         end;
  try reflexivity; try (f_equal; lra).

Lemma lin_comb_cons (m : nat) (a : R) (r b : list R) (B : list (list R)) :
  lin_comb m (a :: r) (b :: B) = vec_add (scale a b) (lin_comb m r B).
Proof. reflexivity. Qed.

Lemma lin_comb_nil_l (m : nat) (B : list (list R)) :
  lin_comb m [] B = replicate m 0%R.
Proof. reflexivity. Qed.

Lemma lin_comb_nil_r (m : nat) (r : list R) :
  lin_comb m r [] = replicate m 0%R.
Proof. by destruct r. Qed.

Lemma vec_add_zeros (m : nat) :
  vec_add (replicate m 0%R) (replicate m 0%R) = replicate m 0%R.
Proof.
  apply list_eq. intros j. unfold vec_add. rewrite lookup_zip_with.
  destruct (decide (j < m)) as [Hj|Hj].
  - rewrite lookup_replicate_2 by done. simpl. f_equal. lra.
  - by rewrite lookup_ge_None_2 by (rewrite length_replicate; lia).
Qed.

Lemma scale_zeros (a : R) (m : nat) :
  scale a (replicate m 0%R) = replicate m 0%R.
Proof.
  induction m as [|m IH]; [done|]. unfold scale in *. simpl. rewrite IH.
  f_equal. lra.
Qed.

Lemma vec_add_scale0 (c v : list R) :
  length c = length v -> vec_add (scale 0 c) v = v.
Proof.
  revert v. induction c as [|x c IH]; intros [|y v] Hlen; simpl in *;
    try done. unfold vec_add, scale in *. simpl. rewrite IH by lia.
  f_equal. lra.
Qed.

Lemma length_lin_comb (m : nat) (r : list R) (B : list (list R)) :
  Forall (fun b => length b = m) B -> length (lin_comb m r B) = m.
Proof.
  intros HB. revert r. induction HB as [|b B Hb HB IH]; intros r.
  - rewrite lin_comb_nil_r. apply length_replicate.
  - destruct r as [|a r]; [apply length_replicate|].
    rewrite lin_comb_cons. unfold vec_add, scale.
    rewrite length_zip_with, length_map, IH. lia.
Qed.

Lemma lin_comb_add (m : nat) (u v : list R) (C : list (list R)) :
  length u = length v ->
  lin_comb m (vec_add u v) C = vec_add (lin_comb m u C) (lin_comb m v C).
Proof.
  revert u v. induction C as [|c C IH]; intros u v Hlen.
  - by rewrite !lin_comb_nil_r, vec_add_zeros.
  - destruct u as [|x u], v as [|y v]; simpl in Hlen; try done.
    + by rewrite !lin_comb_nil_l, vec_add_zeros.
    + change (vec_add (x :: u) (y :: v)) with ((x + y)%R :: vec_add u v).
      rewrite !lin_comb_cons, IH by lia.
      generalize (lin_comb m u C) (lin_comb m v C). intros L1 L2. vec_ext.
Qed.

Lemma lin_comb_scale (m : nat) (a : R) (u : list R) (C : list (list R)) :
  lin_comb m (scale a u) C = scale a (lin_comb m u C).
Proof.
  revert u. induction C as [|c C IH]; intros u.
  - by rewrite !lin_comb_nil_r, scale_zeros.
  - destruct u as [|x u].
    + by rewrite !lin_comb_nil_l, scale_zeros.
    + change (scale a (x :: u)) with ((a * x)%R :: scale a u).
      rewrite !lin_comb_cons, IH.
      generalize (lin_comb m u C). intros L. vec_ext.
Qed.

Lemma lin_comb_zeros (m q : nat) (C : list (list R)) :
  Forall (fun c => length c = m) C -> lin_comb m (replicate q 0%R) C = replicate m 0%R.
Proof.
  intros HC. revert q. induction HC as [|c C Hc HC IH]; intros q.
  - apply lin_comb_nil_r.
  - destruct q as [|q]; [done|]. simpl replicate. rewrite lin_comb_cons, IH.
    apply vec_add_scale0. by rewrite length_replicate.
Qed.

(** A row times a product is the row times the first factor, times the
    second. *)
Lemma lin_comb_assoc (m q : nat) (r : list R) (B C : list (list R)) :
  Forall (fun b => length b = q) B -> Forall (fun c => length c = m) C ->
  lin_comb m (lin_comb q r B) C = lin_comb m r (map (fun b => lin_comb m b C) B).
Proof.
  intros HB HC. revert r. induction HB as [|b B Hb HB IH]; intros r.
  - rewrite lin_comb_nil_r. simpl. rewrite lin_comb_nil_r. by apply lin_comb_zeros.
  - destruct r as [|a r].
    + rewrite !lin_comb_nil_l. by apply lin_comb_zeros.
    + simpl map. rewrite !lin_comb_cons, lin_comb_add, lin_comb_scale, IH; [done|].
      unfold scale. rewrite length_map, length_lin_comb; done.
Qed.

Lemma ncols_mat_mul (B C : list (list R)) :
  B <> [] -> rect C -> ncols (mat_mul B C) = ncols C.
Proof.
  intros HB HC. destruct B as [|b B]; [done|]. unfold ncols at 1. simpl.
  by apply length_lin_comb.
Qed.

Lemma mat_mul_assoc (A B C : list (list R)) :
  B <> [] -> rect B -> rect C ->
  mat_mul (mat_mul A B) C = mat_mul A (mat_mul B C).
Proof.
  intros Hne HB HC. unfold mat_mul at 1 2 3. rewrite map_map.
  apply map_ext. intros r. unfold row_dot.
  rewrite (ncols_mat_mul B C) by done. by apply lin_comb_assoc.
Qed.

Lemma shape_rect {A : Type} (mat : list (list A)) (n m : nat) :
  shape mat n m -> rect mat.
Proof.
  intros [Hn Hrows]. unfold rect. destruct mat as [|row mat]; [constructor|].
  unfold ncols. simpl. inversion Hrows; subst. done.
Qed.

Lemma shape_mat_mul (A B : list (list R)) (n p m : nat) :
  length A = n -> shape B p m -> 0 < p -> shape (mat_mul A B) n m.
Proof.
  intros HA HB Hp. split; unfold mat_mul.
  - by rewrite length_map.
  - apply List.Forall_map, Forall_forall. intros r _. unfold row_dot.
    rewrite (ImputerFacts.shape_ncols _ _ _ HB Hp).
    apply length_lin_comb, HB.
Qed.

End MatrixFacts.

(** ** Truncated SVD engine *)

Module EngineFacts.
Import SVD MatrixFacts.

Lemma slice_stop_in_range (k : Z) (r : nat) :
  (1 <= k <= Z.of_nat r)%Z -> Py.slice_stop k r = Z.to_nat k.
Proof.
  intros Hk. unfold Py.slice_stop.
  destruct (Z.ltb_spec k 0); lia.
Qed.

Lemma slice_stop_above (k : Z) (r : nat) :
  (Z.of_nat r <= k)%Z -> Py.slice_stop k r = r.
Proof.
  intros Hk. unfold Py.slice_stop.
  destruct (Z.ltb_spec k 0); lia.
Qed.

Lemma slice_stop_negative (k : Z) (r : nat) :
  (k < 0)%Z -> Py.slice_stop k r = Z.to_nat (Z.of_nat r + k).
Proof.
  intros Hk. unfold Py.slice_stop.
  destruct (Z.ltb_spec k 0); lia.
Qed.

Lemma slice_stop_le (k : Z) (r : nat) : Py.slice_stop k r <= r.
Proof.
  unfold Py.slice_stop. destruct (Z.ltb_spec k 0); lia.
Qed.

Lemma shape_slice_cols {A : Type} (k : Z) (M : list (list A)) (n r : nat) :
  shape M n r -> shape (slice_cols k M) n (Py.slice_stop k r).
Proof.
  intros [Hn Hrows]. split; unfold slice_cols.
  - by rewrite length_map.
  - apply List.Forall_map. eapply Forall_impl; [exact Hrows|].
    intros row Hrow. simpl in *. unfold Py.slice0.
    rewrite length_take, Hrow. pose proof (slice_stop_le k r). lia.
Qed.

Lemma shape_slice_rows {A : Type} (k : Z) (M : list (list A)) (r m : nat) :
  shape M r m -> shape (slice_rows k M) (Py.slice_stop k r) m.
Proof.
  intros [Hn Hrows]. split; unfold slice_rows, Py.slice0.
  - rewrite length_take, Hn. pose proof (slice_stop_le k r). lia.
  - by apply Forall_take.
Qed.

Lemma shape_np_diag (s : list R) : shape (np_diag s) (length s) (length s).
Proof.
  split; unfold np_diag.
  - apply length_imap.
  - apply Forall_lookup. intros i row Hrow.
    apply list_lookup_imap_Some in Hrow as (si & _ & ->).
    by rewrite length_insert, length_replicate.
Qed.

Lemma shape_truncated_diag (s : list R) (k : Z) :
  shape (slice_cols k (slice_rows k (np_diag s)))
        (Py.slice_stop k (length s)) (Py.slice_stop k (length s)).
Proof. apply shape_slice_cols, shape_slice_rows, shape_np_diag. Qed.

Lemma shape_nonempty {A : Type} (M : list (list A)) (n m : nat) :
  shape M n m -> 0 < n -> M <> [].
Proof. intros [<- _] Hn ->. simpl in Hn. lia. Qed.

Lemma dot_ok (A B : list (list R)) (n p : nat) :
  shape A n p -> length B = p -> np_dot A B = Ok (mat_mul A B).
Proof.
  intros [_ HA] HB. unfold np_dot.
  destruct (decide (Forall (fun r => length r = length B) A)) as [|Hno]; [done|].
  destruct Hno. by rewrite HB.
Qed.

Lemma add_row_ok (P : list (list R)) (mu : list R) (n m : nat) :
  shape P n m -> length mu = m ->
  np_add P (tile (Some <$> mu) n) = Ok (map (map Some) (add_row_vector P mu)).
Proof.
  intros [Hn HP] Hmu. unfold np_add, tile.
  destruct (decide (Forall2 (fun r r' => length r = length r') P
                            (replicate n (Some <$> mu)))) as [_|Hno].
  - f_equal. unfold add_row_vector. rewrite zip_with_replicate_r_eq by done.
    rewrite map_map. apply map_ext. intros row. unfold flip, vec_add.
    apply list_eq. intros j.
    rewrite lookup_zip_with, !list_lookup_fmap, lookup_zip_with.
    destruct (row !! j), (mu !! j); reflexivity.
  - destruct Hno. apply Forall2_replicate_r; [done|].
    eapply Forall_impl; [exact HP|]. intros row Hrow. unfold flip. simpl in *.
    by rewrite length_fmap, Hmu.
Qed.

(** The symmetric split: scaling both factors by a square root [X] of the
    truncated diagonal gives the product with the diagonal itself. *)
Lemma split_product (Uk X D Vk : list (list R)) (j m : nat) :
  0 < j -> shape X j j -> shape D j j -> shape Vk j m ->
  mat_mul X X = D ->
  mat_mul (mat_mul Uk X) (mat_mul X Vk) = mat_mul (mat_mul Uk D) Vk.
Proof.
  intros Hj HX HD HVk Hsq.
  pose proof (shape_nonempty _ _ _ HX Hj) as HXne.
  pose proof (shape_nonempty _ _ _ HD Hj) as HDne.
  assert (HXV : rect (mat_mul X Vk)).
  { eapply shape_rect, (shape_mat_mul _ _ j j m); [apply HX|done|done]. }
  rewrite (mat_mul_assoc Uk X (mat_mul X Vk)) by eauto using shape_rect.
  rewrite <- (mat_mul_assoc X X Vk) by eauto using shape_rect.
  rewrite Hsq.
  by rewrite (mat_mul_assoc Uk D Vk) by eauto using shape_rect.
Qed.

Section Engine.

Variable linalg_svd :
  list (list (option R)) -> list (list R) * list R * list (list R).
Variable sqrtm : list (list R) -> list (list R).

(** What [svd] returns for any slice bound [k] that keeps at least one
    component, when the decomposition has the shapes of a thin SVD and
    [sqrtm] returns a square root of the truncated diagonal. *)
Lemma svd_eval (mat : list (list (option R))) (n m : nat) (k : Z)
  (U : list (list R)) (s : list R) (V : list (list R)) :
  shape mat n m ->
  (forall j, j < m -> observed j mat) ->
  linalg_svd (centered mat) = (U, s, V) ->
  shape U n (Nat.min n m) -> length s = Nat.min n m -> shape V (Nat.min n m) m ->
  0 < Py.slice_stop k (Nat.min n m) ->
  shape (sqrtm (slice_cols k (slice_rows k (np_diag s))))
        (Py.slice_stop k (Nat.min n m)) (Py.slice_stop k (Nat.min n m)) ->
  mat_mul (sqrtm (slice_cols k (slice_rows k (np_diag s))))
          (sqrtm (slice_cols k (slice_rows k (np_diag s))))
  = slice_cols k (slice_rows k (np_diag s)) ->
  svd linalg_svd sqrtm mat k
  = Ok (map (map Some)
            (add_row_vector (truncated_product U s V k)
                            (map (fun j => observed_mean j mat) (seq 0 m)))).
Proof.
  intros Hmat Hobs Hsvd HU Hs HV Hj HX Hsq. unfold svd.
  change (mat_sub (filled mat (mean_axis0 mat))
                  (tile (mean_axis0 mat) (length (filled mat (mean_axis0 mat)))))
    with (centered mat).
  rewrite Hsvd.
  set (j := Py.slice_stop k (Nat.min n m)) in *.
  set (D := slice_cols k (slice_rows k (np_diag s))) in *.
  set (X := sqrtm D) in *.
  assert (HD : shape D j j).
  { subst D j. rewrite <- Hs. apply shape_truncated_diag. }
  pose proof (shape_slice_cols k U _ _ HU) as HUk. fold j in HUk.
  pose proof (shape_slice_rows k V _ _ HV) as HVk. fold j in HVk.
  rewrite (dot_ok _ X n j) by (done || apply HX). rewrite PyFacts.bind_ok.
  rewrite (dot_ok X _ j j) by (done || apply HVk). rewrite PyFacts.bind_ok.
  assert (HUX : shape (mat_mul (slice_cols k U) X) n j).
  { apply (shape_mat_mul _ _ n j j); [apply HUk|done|done]. }
  assert (HXV : shape (mat_mul X (slice_rows k V)) j m).
  { apply (shape_mat_mul _ _ j j m); [apply HX|done|done]. }
  rewrite (dot_ok _ _ n j) by (done || apply HXV). rewrite PyFacts.bind_ok.
  rewrite (split_product _ X D _ j m) by done.
  pose proof (ImputerFacts.mean_axis0_observed _ _ _ Hmat Hobs) as Hmu.
  rewrite Hmu. unfold filled. rewrite length_map. destruct Hmat as [Hn Hrows].
  rewrite Hn.
  rewrite <- (map_map (fun j => observed_mean j mat) Some).
  apply (add_row_ok _ _ n m).
  - apply (shape_mat_mul _ _ _ j m); [|done|done].
    unfold mat_mul. rewrite length_map. apply HUk.
  - by rewrite length_map, length_seq.
Qed.

End Engine.

Lemma dense_all_observed (mat : list (list (option R))) (n m : nat) :
  shape mat n m -> dense mat -> 0 < n -> forall j, j < m -> observed j mat.
Proof.
  intros [Hn Hrows] Hdense Hpos j Hj.
  destruct mat as [|row mat]; simpl in Hn; [lia|].
  inversion Hrows as [|? ? Hrow _]; subst.
  inversion Hdense as [|? ? Hd _]; subst.
  assert (is_Some (row !! j)) as [c Hc] by (apply lookup_lt_is_Some; lia).
  rewrite Forall_lookup in Hd. destruct (Hd _ _ Hc) as [v ->].
  exists 0, v. by rewrite ImputerFacts.at_cons_0.
Qed.

Lemma dense_mean_eq (mat : list (list (option R))) (n m j : nat) :
  shape mat n m -> dense mat -> j < m ->
  observed_mean j mat = column_mean j mat.
Proof.
  intros Hshape Hdense Hj.
  destruct (ImputerFacts.dense_observed j _ _ _ Hshape Hdense) as [Hs Hc]; [lia|].
  unfold observed_mean, column_mean. by rewrite Hs, Hc.
Qed.

Lemma dense_means (mat : list (list (option R))) (n m : nat) :
  shape mat n m -> dense mat ->
  map (fun j => observed_mean j mat) (seq 0 m)
  = map (fun j => column_mean j mat) (seq 0 m).
Proof.
  intros Hshape Hdense. apply map_ext_in. intros j Hj%in_seq.
  apply (dense_mean_eq _ n m); [done|done|lia].
Qed.

Lemma slice_cols_stop {A : Type} (k k' : Z) (M : list (list A)) (n r : nat) :
  shape M n r -> Py.slice_stop k r = Py.slice_stop k' r ->
  slice_cols k M = slice_cols k' M.
Proof.
  intros [_ Hrows] Hstop. unfold slice_cols. apply map_ext_in.
  intros row Hrow%list_elem_of_In. rewrite Forall_forall in Hrows.
  unfold Py.slice0. by rewrite (Hrows _ Hrow), Hstop.
Qed.

Lemma slice_rows_stop {A : Type} (k k' : Z) (M : list (list A)) (r m : nat) :
  shape M r m -> Py.slice_stop k r = Py.slice_stop k' r ->
  slice_rows k M = slice_rows k' M.
Proof.
  intros [Hr _] Hstop. unfold slice_rows, Py.slice0. by rewrite Hr, Hstop.
Qed.

Lemma truncated_product_stop (U : list (list R)) (s : list R) (V : list (list R))
  (n r m : nat) (k k' : Z) :
  shape U n r -> length s = r -> shape V r m ->
  Py.slice_stop k r = Py.slice_stop k' r ->
  truncated_product U s V k = truncated_product U s V k'.
Proof.
  intros HU Hs HV Hstop. unfold truncated_product.
  rewrite (slice_cols_stop k k' U n r) by done.
  rewrite (slice_rows_stop k k' V r m) by done.
  rewrite (slice_rows_stop k k' (np_diag s) r r)
    by (done || (rewrite <- Hs; apply shape_np_diag)).
  rewrite (slice_cols_stop k k' (slice_rows k' (np_diag s)) (Py.slice_stop k' r) r);
    [done| |done].
  apply shape_slice_rows. rewrite <- Hs. apply shape_np_diag.
Qed.

(** The hypotheses of [svd_eval] on the scenario [four_by_two]. *)
Ltac scenario_shape := split; [reflexivity | repeat constructor].

Ltac scenario_sqrtm :=
  unfold Scenario.diagonal_sqrtm, Scenario.four_by_two_s, mat_mul, row_dot,
    lin_comb, slice_cols, slice_rows, Py.slice0, Py.slice_stop, np_diag,
    vec_add, scale;
  simpl; rewrite ?sqrt_0, ?sqrt_sqrt by lra; repeat f_equal; lra.

(** The factors of the scenario do decompose its centered matrix. *)
Lemma four_by_two_decomposition :
  map (map Some)
      (mat_mul (mat_mul Scenario.four_by_two_U (np_diag Scenario.four_by_two_s))
               Scenario.four_by_two_V)
  = centered Scenario.four_by_two.
Proof.
  unfold centered, impute, mean_axis0, ma_mean, filled, tile, mat_sub, mat_mul,
    row_dot, lin_comb, np_diag, vec_add, scale, Py.sum.
  simpl. repeat f_equal; lra.
Qed.

Lemma four_by_two_observed (j : nat) :
  j < 2 -> observed j Scenario.four_by_two.
Proof.
  intros Hj. do 2 (destruct j as [|j]; [by eexists 0, _|]). lia.
Qed.

Lemma matrix_ext {A : Type} (M N : list (list A)) (n m : nat) :
  shape M n m -> shape N n m ->
  (forall r c, r < n -> c < m -> at_ M r c = at_ N r c) ->
  M = N.
Proof.
  intros [HMn HM] [HNn HN] Hcells. apply list_eq. intros r.
  destruct (decide (r < n)) as [Hr|Hr].
  2:{ by rewrite !lookup_ge_None_2 by lia. }
  destruct (lookup_lt_is_Some_2 M r) as [rowM HrowM]; [lia|].
  destruct (lookup_lt_is_Some_2 N r) as [rowN HrowN]; [lia|].
  rewrite HrowM, HrowN. f_equal. apply list_eq. intros c.
  rewrite Forall_lookup in HM, HN.
  pose proof (HM _ _ HrowM) as HlenM. pose proof (HN _ _ HrowN) as HlenN.
  destruct (decide (c < m)) as [Hc|Hc].
  2:{ by rewrite !lookup_ge_None_2 by lia. }
  specialize (Hcells r c Hr Hc). unfold at_ in Hcells.
  by rewrite HrowM, HrowN in Hcells.
Qed.

Lemma at_defined (P : list (list R)) (i j : nat) :
  at_ (map (map Some) P) i j = Some <$> at_ P i j.
Proof.
  unfold at_. rewrite list_lookup_fmap. destruct (P !! i) as [row|]; [|done].
  simpl. by rewrite list_lookup_fmap.
Qed.

Lemma at_add_row_vector (P : list (list R)) (mu : list R) (i j : nat) (p v : R) :
  at_ P i j = Some p -> mu !! j = Some v ->
  at_ (add_row_vector P mu) i j = Some (p + v)%R.
Proof.
  intros (row & Hrow & Hp)%ImputerFacts.at_Some Hv. apply ImputerFacts.at_Some.
  exists (vec_add row mu). split.
  - unfold add_row_vector. by rewrite list_lookup_fmap, Hrow.
  - unfold vec_add. by rewrite lookup_zip_with, Hp, Hv.
Qed.

Lemma shape_add_row_vector (P : list (list R)) (mu : list R) (n m : nat) :
  shape P n m -> length mu = m -> shape (map (map Some) (add_row_vector P mu)) n m.
Proof.
  intros [Hn Hrows] Hmu. split.
  - unfold add_row_vector. by rewrite !length_map.
  - unfold add_row_vector. rewrite map_map. apply List.Forall_map.
    eapply Forall_impl; [exact Hrows|]. intros row Hrow. simpl in *.
    unfold vec_add. rewrite length_map, length_zip_with. lia.
Qed.

(** *** The reconstruction, entry by entry *)

Lemma big_sum_ext (f g : nat -> R) (k : nat) :
  (forall l, l < k -> f l = g l) -> big_sum f k = big_sum g k.
Proof.
  revert f g. induction k as [|k IH]; intros f g Hfg; [done|].
  simpl. rewrite (Hfg 0) by lia. f_equal.
  apply IH. intros l Hl. apply Hfg. lia.
Qed.

Lemma big_sum_zero (f : nat -> R) (k : nat) :
  (forall l, l < k -> f l = 0%R) -> big_sum f k = 0%R.
Proof.
  revert f. induction k as [|k IH]; intros f Hf; [done|].
  simpl. rewrite (Hf 0), IH; [lra| |lia].
  intros l Hl. apply Hf. lia.
Qed.

(** A sum with at most one term that is not [0]. *)
Lemma big_sum_single (f : nat -> R) (k i : nat) :
  i < k -> (forall l, l < k -> l <> i -> f l = 0%R) -> big_sum f k = f i.
Proof.
  revert f i. induction k as [|k IH]; intros f i Hi Hf; [lia|].
  simpl. destruct i as [|i].
  - rewrite big_sum_zero; [lra|]. intros l Hl. apply Hf; lia.
  - rewrite (Hf 0), (IH _ i); [lra|lia| |lia|lia].
    intros l Hl Hne. apply Hf; lia.
Qed.

Lemma at_entry (M : list (list R)) (n m i j : nat) :
  shape M n m -> i < n -> j < m -> at_ M i j = Some (entry M i j).
Proof.
  intros [Hn Hrows] Hi Hj. unfold entry, at_.
  destruct (lookup_lt_is_Some_2 M i) as [row Hrow]; [lia|].
  rewrite Hrow. simpl. rewrite Forall_lookup in Hrows.
  destruct (lookup_lt_is_Some_2 row j) as [v Hv]; [rewrite (Hrows _ _ Hrow); lia|].
  by rewrite Hv.
Qed.

Lemma entry_cons_0 (row : list R) (M : list (list R)) (j : nat) :
  entry (row :: M) 0 j = default 0%R (row !! j).
Proof. reflexivity. Qed.

(** The entries of a combination of rows. *)
Lemma lin_comb_lookup (m : nat) (r : list R) (B : list (list R)) (j : nat) :
  Forall (fun b => length b = m) B -> length r = length B -> j < m ->
  lin_comb m r B !! j
  = Some (big_sum (fun l => default 0 (r !! l) * entry B l j)%R (length B)).
Proof.
  intros HB. revert r. induction HB as [|b B Hb HB IH]; intros r Hr Hj.
  - rewrite lin_comb_nil_r. simpl. by rewrite lookup_replicate_2.
  - destruct r as [|a r]; [done|]. simpl in Hr.
    rewrite lin_comb_cons. unfold vec_add, scale.
    rewrite lookup_zip_with, list_lookup_fmap, IH by lia.
    destruct (lookup_lt_is_Some_2 b j) as [v Hv]; [lia|].
    rewrite Hv. simpl. rewrite entry_cons_0, Hv. reflexivity.
Qed.

(** The entries of a product. *)
Lemma entry_mat_mul (A B : list (list R)) (n p m i j : nat) :
  shape A n p -> shape B p m -> 0 < p -> i < n -> j < m ->
  entry (mat_mul A B) i j = big_sum (fun l => entry A i l * entry B l j)%R p.
Proof.
  intros [Hn HA] HB Hp Hi Hj.
  destruct (lookup_lt_is_Some_2 A i) as [a Ha]; [lia|].
  rewrite Forall_lookup in HA. pose proof (HA _ _ Ha) as Hlen. simpl in Hlen.
  unfold entry at 1, at_, mat_mul. rewrite list_lookup_fmap, Ha. simpl.
  unfold row_dot. rewrite (ImputerFacts.shape_ncols _ _ _ HB Hp).
  destruct HB as [HBn HBrows].
  rewrite lin_comb_lookup by (done || lia). simpl. rewrite HBn.
  apply big_sum_ext. intros l _. unfold entry at 2, at_. by rewrite Ha.
Qed.

Lemma entry_slice_cols (k : Z) (M : list (list R)) (n r i j : nat) :
  shape M n r -> j < Py.slice_stop k r ->
  entry (slice_cols k M) i j = entry M i j.
Proof.
  intros [_ Hrows] Hj. unfold entry, at_, slice_cols.
  rewrite list_lookup_fmap. destruct (M !! i) as [row|] eqn:Hrow; [|done].
  simpl. rewrite Forall_lookup in Hrows. unfold Py.slice0.
  rewrite (Hrows _ _ Hrow). by rewrite lookup_take_lt.
Qed.

Lemma entry_slice_rows (k : Z) (M : list (list R)) (i j : nat) :
  i < Py.slice_stop k (length M) ->
  entry (slice_rows k M) i j = entry M i j.
Proof.
  intros Hi. unfold entry, at_, slice_rows, Py.slice0.
  by rewrite lookup_take_lt.
Qed.

Lemma entry_np_diag (s : list R) (i j : nat) :
  i < length s -> j < length s ->
  entry (np_diag s) i j = if decide (i = j) then default 0%R (s !! i) else 0%R.
Proof.
  intros Hi Hj. unfold entry, at_, np_diag. rewrite list_lookup_imap.
  destruct (lookup_lt_is_Some_2 s i Hi) as [si Hsi]. rewrite Hsi. simpl.
  destruct (decide (i = j)) as [<-|Hne].
  - by rewrite list_lookup_insert_eq by (by rewrite length_replicate).
  - by rewrite list_lookup_insert_ne, lookup_replicate_2.
Qed.

(** The entries of [diag(s)[:k, :k]]. *)
Lemma entry_truncated_diag (s : list R) (k : Z) (i j : nat) :
  i < Py.slice_stop k (length s) -> j < Py.slice_stop k (length s) ->
  entry (slice_cols k (slice_rows k (np_diag s))) i j
  = if decide (i = j) then default 0%R (s !! i) else 0%R.
Proof.
  intros Hi Hj. pose proof (slice_stop_le k (length s)) as Hle.
  pose proof (shape_np_diag s) as Hdiag.
  rewrite (entry_slice_cols k _ (Py.slice_stop k (length s)) (length s))
    by (done || by apply shape_slice_rows).
  rewrite entry_slice_rows by (by rewrite (proj1 Hdiag)).
  apply entry_np_diag; lia.
Qed.

Lemma truncated_diag_nonneg (s : list R) (k : Z) :
  Forall (fun x => 0 <= x)%R s ->
  diagonal_nonneg (slice_cols k (slice_rows k (np_diag s)))
                  (Py.slice_stop k (length s)).
Proof.
  intros Hs. split; [apply shape_truncated_diag|].
  intros i j Hi Hj. rewrite entry_truncated_diag by done.
  pose proof (slice_stop_le k (length s)) as Hle.
  destruct (decide (i = j)) as [Heq|Hne]; [|split; [lra|done]].
  split; [|by intros Hne].
  destruct (lookup_lt_is_Some_2 s i) as [si Hsi]; [lia|]. rewrite Hsi. simpl.
  rewrite Forall_lookup in Hs. exact (Hs _ _ Hsi).
Qed.

(** A square root in the sense of the contract is one for [mat_mul]. *)
Lemma square_root_mat_mul (X D : list (list R)) (k : nat) :
  0 < k -> shape D k k -> square_root X D k -> mat_mul X X = D.
Proof.
  intros Hk HD [HX Hsq].
  apply (matrix_ext _ _ k k); [|done|].
  - apply (shape_mat_mul _ _ k k k); [apply HX|done|done].
  - intros i j Hi Hj.
    rewrite (at_entry _ k k), (at_entry D k k); try done.
    + f_equal. rewrite (entry_mat_mul X X k k k) by done. by apply Hsq.
    + apply (shape_mat_mul _ _ k k k); [apply HX|done|done].
Qed.

(** The entries of [U[:, :k] . diag(s)[:k, :k] . V[:k, :]]. *)
Lemma entry_truncated_product (U : list (list R)) (s : list R) (V : list (list R))
  (n r m : nat) (k : Z) (i j : nat) :
  shape U n r -> length s = r -> shape V r m ->
  0 < Py.slice_stop k r -> i < n -> j < m ->
  entry (truncated_product U s V k) i j = rank_k_sum U s V (Py.slice_stop k r) i j.
Proof.
  intros HU Hs HV Hpos Hi Hj. unfold truncated_product, rank_k_sum.
  set (q := Py.slice_stop k r) in *.
  pose proof (shape_slice_cols k U _ _ HU) as HUk. fold q in HUk.
  pose proof (shape_slice_rows k V _ _ HV) as HVk. fold q in HVk.
  assert (HD : shape (slice_cols k (slice_rows k (np_diag s))) q q).
  { subst q. rewrite <- Hs. apply shape_truncated_diag. }
  rewrite (entry_mat_mul _ _ n q m); [|by apply (shape_mat_mul _ _ n q q); [apply HUk|..]|done..].
  apply big_sum_ext. intros l Hl.
  rewrite (entry_mat_mul _ _ n q q) by done.
  rewrite (big_sum_single _ q l Hl).
  - rewrite entry_truncated_diag by (by rewrite Hs).
    destruct (decide (l = l)) as [_|Hno]; [|done].
    rewrite (entry_slice_cols k U n r) by done.
    rewrite entry_slice_rows by (by rewrite (proj1 HV)). reflexivity.
  - intros l' Hl' Hne. rewrite entry_truncated_diag by (by rewrite Hs).
    destruct (decide (l' = l)) as [|_]; [done|]. lra.
Qed.

(** The square roots of the entries do satisfy the contract of [sqrtm]. *)
Lemma diagonal_sqrtm_contract : sqrtm_contract Scenario.diagonal_sqrtm.
Proof.
  intros D k [HD Hdiag].
  assert (Hentry : forall i j, i < k -> j < k ->
             entry (Scenario.diagonal_sqrtm D) i j = sqrt (entry D i j)).
  { intros i j Hi Hj. unfold entry at 1, at_, Scenario.diagonal_sqrtm.
    rewrite list_lookup_fmap.
    pose proof (at_entry D k k i j HD Hi Hj) as Hat. unfold at_ in Hat.
    destruct (D !! i) as [row|]; [|done]. simpl in *.
    by rewrite list_lookup_fmap, Hat. }
  split.
  - destruct HD as [Hn Hrows]. split; unfold Scenario.diagonal_sqrtm.
    + by rewrite length_map.
    + apply List.Forall_map. eapply Forall_impl; [exact Hrows|].
      intros row Hrow. simpl in *. by rewrite length_map.
  - intros i j Hi Hj. destruct (decide (i = j)) as [<-|Hne].
    + rewrite (big_sum_single _ k i Hi).
      * rewrite Hentry by done. apply sqrt_sqrt. by apply Hdiag.
      * intros l Hl Hli. rewrite (Hentry l i) by done.
        rewrite (proj2 (Hdiag l i Hl Hi) Hli), sqrt_0. lra.
    + rewrite (proj2 (Hdiag i j Hi Hj) Hne). apply big_sum_zero. intros l Hl.
      rewrite !Hentry by done. destruct (decide (l = i)) as [->|Hli].
      * rewrite (proj2 (Hdiag i j Hi Hj) Hne), sqrt_0. lra.
      * assert (Hil : i <> l) by congruence.
        rewrite (proj2 (Hdiag i l Hi Hl) Hil), sqrt_0. lra.
Qed.

(** C1.  For a dense [n] by [m] matrix and a rank [k] between [1] and
    [min n m], [svd] hands the matrix minus its column means to the
    decomposition and, with [(U, s, V)] what the decomposition returns there,
    returns the [n] by [m] matrix whose entry [(i, j)] is the sum of
    [U[i, l] * s[l] * V[l, j]] over the first [k] components plus the mean
    of column [j]; the split of the diagonal into two square roots leaves no
    trace in the result. *)
Theorem svd_rank_k_reconstruction
  (linalg_svd : list (list (option R)) -> list (list R) * list R * list (list R))
  (sqrtm : list (list R) -> list (list R))
  (mat : list (list (option R))) (n m : nat) (k : Z)
  (U : list (list R)) (s : list R) (V : list (list R)) :
  shape mat n m -> dense mat ->
  (1 <= k <= Z.of_nat (Nat.min n m))%Z ->
  linalg_svd (centered mat) = (U, s, V) ->
  shape U n (Nat.min n m) -> length s = Nat.min n m ->
  Forall (fun x => 0 <= x)%R s -> shape V (Nat.min n m) m ->
  sqrtm_contract sqrtm ->
  (forall i j v, at_ mat i j = Some (Some v) ->
                 at_ (centered mat) i j = Some (Some (v - column_mean j mat)%R))
  /\ exists out,
       svd linalg_svd sqrtm mat k = Ok out
       /\ shape out n m
       /\ forall i j, i < n -> j < m ->
            at_ out i j
            = Some (Some (rank_k_sum U s V (Z.to_nat k) i j + column_mean j mat)%R).
Proof.
  intros Hmat Hdense Hk Hsvd HU Hs Hnonneg HV Hsqrtm.
  assert (Hobs : forall j, j < m -> observed j mat).
  { apply (dense_all_observed _ n m); [done|done|lia]. }
  pose proof (dense_means _ _ _ Hmat Hdense) as Hmeans.
  split.
  - intros i j v Hv. unfold centered, impute. simpl.
    pose proof (ImputerFacts.impute_cell _ _ _ Hmat Hobs _ _ _ Hv) as HF.
    assert (Hi : i < length (filled mat (mean_axis0 mat))).
    { apply ImputerFacts.at_Some in HF as (row & Hrow & _).
      by apply lookup_lt_Some in Hrow. }
    assert (Hj : j < m).
    { apply ImputerFacts.at_Some in Hv as (row & Hrow & Hc).
      rewrite <- (ImputerFacts.shape_lookup _ _ _ _ _ Hmat Hrow).
      by apply lookup_lt_Some in Hc. }
    erewrite ImputerFacts.mat_sub_at; [|exact HF|].
    2:{ rewrite ImputerFacts.tile_at by done.
        rewrite (ImputerFacts.mean_axis0_observed _ _ _ Hmat Hobs).
        rewrite list_lookup_fmap, lookup_seq_lt by done. reflexivity. }
    simpl. do 3 f_equal. by apply (dense_mean_eq _ n m).
  - pose proof (slice_stop_in_range k (Nat.min n m) Hk) as Hstop.
    assert (Hpos : 0 < Py.slice_stop k (Nat.min n m)) by lia.
    pose proof (truncated_diag_nonneg s k Hnonneg) as HD. rewrite Hs in HD.
    pose proof (Hsqrtm _ _ HD) as HX.
    assert (HP : shape (truncated_product U s V k) n m).
    { unfold truncated_product.
      apply (shape_mat_mul _ _ n (Py.slice_stop k (Nat.min n m)) m);
        [|by apply shape_slice_rows|done].
      unfold mat_mul. rewrite length_map.
      apply (shape_slice_cols k U n (Nat.min n m) HU). }
    eexists. split; [|split].
    + apply (svd_eval linalg_svd sqrtm mat n m k U s V); try done.
      * apply HX.
      * apply (square_root_mat_mul _ _ _ Hpos); [apply HD|done].
    + apply shape_add_row_vector; [done|]. by rewrite length_map, length_seq.
    + intros i j Hi Hj. rewrite at_defined.
      rewrite (at_add_row_vector _ _ i j (entry (truncated_product U s V k) i j)
                 (column_mean j mat)).
      * simpl. do 3 f_equal.
        rewrite (entry_truncated_product U s V n (Nat.min n m) m) by done.
        by rewrite Hstop.
      * by apply (at_entry _ n m).
      * rewrite Hmeans, list_lookup_fmap, lookup_seq_lt by done. reflexivity.
Qed.

(** On [four_by_two] the first component alone gives the matrix back. *)
Lemma svd_rank_k_reconstruction_witness :
  exists out,
    svd Scenario.four_by_two_svd Scenario.diagonal_sqrtm Scenario.four_by_two 1
    = Ok out
    /\ shape out 4 2
    /\ at_ out 0 0 = Some (Some 3%R) /\ at_ out 1 1 = Some (Some 4%R)
    /\ at_ out 3 0 = Some (Some 0%R).
Proof.
  destruct (svd_rank_k_reconstruction
              Scenario.four_by_two_svd Scenario.diagonal_sqrtm
              Scenario.four_by_two 4 2 1
              Scenario.four_by_two_U Scenario.four_by_two_s Scenario.four_by_two_V)
    as [_ (out & Hok & Hshape & Hcells)].
  - scenario_shape.
  - repeat constructor; by eexists.
  - simpl. lia.
  - reflexivity.
  - scenario_shape.
  - reflexivity.
  - repeat constructor; lra.
  - scenario_shape.
  - apply diagonal_sqrtm_contract.
  - exists out. split; [exact Hok|]. split; [exact Hshape|].
    rewrite !Hcells by lia.
    unfold rank_k_sum, column_mean, cell_value, entry, at_. simpl.
    repeat split; do 2 f_equal; lra.
Defined.

(** C4, as stated, fails: a rank above [min n m] is clamped by the slices and
    a reconstruction (here the input itself) is returned. *)
Lemma svd_rank_above_returns :
  ~ (1 <= 7 <= Z.of_nat (Nat.min 4 2))%Z
  /\ svd Scenario.four_by_two_svd Scenario.diagonal_sqrtm Scenario.four_by_two 7
     = Ok Scenario.four_by_two.
Proof.
  split; [simpl; lia|].
  rewrite (svd_eval Scenario.four_by_two_svd Scenario.diagonal_sqrtm
             Scenario.four_by_two 4 2 7
             Scenario.four_by_two_U Scenario.four_by_two_s Scenario.four_by_two_V).
  - f_equal.
    unfold truncated_product, add_row_vector, mat_mul, row_dot, lin_comb,
      observed_mean, slice_cols, slice_rows, Py.slice0, Py.slice_stop, np_diag,
      vec_add, scale, Scenario.four_by_two.
    simpl. repeat f_equal; lra.
  - scenario_shape.
  - apply four_by_two_observed.
  - reflexivity.
  - scenario_shape.
  - reflexivity.
  - scenario_shape.
  - unfold Py.slice_stop. simpl. lia.
  - scenario_shape.
  - scenario_sqrtm.
Qed.

(** C4, amended.  [svd] has no rank check.  For a rank [k] above [min n m]
    it returns the same reconstruction as for [k = min n m], and for a
    negative [k] above [- min n m] the one for [min n m + k], because the
    slices [0:k] clamp and count from the end. *)
Theorem svd_rank_out_of_range
  (linalg_svd : list (list (option R)) -> list (list R) * list R * list (list R))
  (sqrtm : list (list R) -> list (list R))
  (mat : list (list (option R))) (n m : nat) (k : Z)
  (U : list (list R)) (s : list R) (V : list (list R)) :
  shape mat n m ->
  (forall j, j < m -> observed j mat) ->
  0 < Nat.min n m ->
  (Z.of_nat (Nat.min n m) < k \/ - Z.of_nat (Nat.min n m) < k < 0)%Z ->
  linalg_svd (centered mat) = (U, s, V) ->
  shape U n (Nat.min n m) -> length s = Nat.min n m -> shape V (Nat.min n m) m ->
  shape (sqrtm (slice_cols k (slice_rows k (np_diag s))))
        (Py.slice_stop k (Nat.min n m)) (Py.slice_stop k (Nat.min n m)) ->
  mat_mul (sqrtm (slice_cols k (slice_rows k (np_diag s))))
          (sqrtm (slice_cols k (slice_rows k (np_diag s))))
  = slice_cols k (slice_rows k (np_diag s)) ->
  svd linalg_svd sqrtm mat k
  = Ok (map (map Some)
            (add_row_vector
               (truncated_product U s V
                  (if (k <? 0)%Z then Z.of_nat (Nat.min n m) + k
                   else Z.of_nat (Nat.min n m)))
               (map (fun j => observed_mean j mat) (seq 0 m)))).
Proof.
  intros Hmat Hobs Hr Hk Hsvd HU Hs HV HX Hsq.
  rewrite <- (truncated_product_stop U s V n (Nat.min n m) m k) by
    (try done; unfold Py.slice_stop;
     destruct (Z.ltb_spec k 0);
     repeat match goal with |- context [(?a <? 0)%Z] =>
                              destruct (Z.ltb_spec a 0) end; lia).
  apply (svd_eval linalg_svd sqrtm mat n m k U s V); try done.
  unfold Py.slice_stop. destruct (Z.ltb_spec k 0); lia.
Qed.

Lemma svd_rank_out_of_range_witness :
  svd Scenario.four_by_two_svd Scenario.diagonal_sqrtm Scenario.four_by_two (-1)
  = Ok (map (map Some)
            (add_row_vector
               (truncated_product Scenario.four_by_two_U Scenario.four_by_two_s
                                  Scenario.four_by_two_V 1)
               (map (fun j => observed_mean j Scenario.four_by_two) (seq 0 2)))).
Proof.
  apply (svd_rank_out_of_range
           Scenario.four_by_two_svd Scenario.diagonal_sqrtm
           Scenario.four_by_two 4 2 (-1)
           Scenario.four_by_two_U Scenario.four_by_two_s Scenario.four_by_two_V).
  - scenario_shape.
  - apply four_by_two_observed.
  - simpl. lia.
  - simpl. lia.
  - reflexivity.
  - scenario_shape.
  - reflexivity.
  - scenario_shape.
  - scenario_shape.
  - scenario_sqrtm.
Defined.

End EngineFacts.

(** ** Rating Predictor *)

Module PredictorFacts.
Import Predictor.

Lemma np_mean_defined (vs : list R) :
  vs <> [] -> np_mean (Some <$> vs) = Some (row_mean vs).
Proof.
  intros Hne. unfold np_mean, row_mean.
  rewrite (mapM_fmap_Some (fun c : option R => c) Some vs) by done. simpl.
  destruct (decide (length vs = 0)) as [H0|_].
  - by destruct vs.
  - by rewrite PyFacts.sum_fold_right.
Qed.

(** One iteration appends the cell, or the row mean for an unseen item. *)
Lemma predict_one_ok (out : list (list (option R)))
  (users_ind movie_arr : gmap string nat) (acc : list (option R))
  (ar : rating_row) (r : nat) (row : list (option R)) :
  users_ind !! userId ar = Some r -> out !! r = Some row ->
  (forall c, movie_arr !! movieId ar = Some c -> c < length row) ->
  predict_one out users_ind movie_arr acc ar
  = Ok (acc ++ [predicted_value out users_ind movie_arr ar]).
Proof.
  intros Hr Hrow Hc. unfold predict_one, predicted_value, Py.getitem, Py.index, at_cell.
  rewrite Hr. destruct (movie_arr !! movieId ar) as [c|] eqn:Hmovie; simpl.
  - unfold Py.bind. rewrite Hrow. simpl.
    destruct (lookup_lt_is_Some_2 row c (Hc c eq_refl)) as [v Hv].
    by rewrite Hv.
  - unfold Py.bind. by rewrite Hrow.
Qed.

Lemma predict_loop_ok (out : list (list (option R)))
  (users_ind movie_arr : gmap string nat) (test : list rating_row) :
  Forall (fun ar => exists r row,
              users_ind !! userId ar = Some r /\ out !! r = Some row
              /\ forall c, movie_arr !! movieId ar = Some c -> c < length row) test ->
  forall acc,
    Py.for_each (predict_one out users_ind movie_arr) test acc
    = Ok (acc ++ map (predicted_value out users_ind movie_arr) test).
Proof.
  induction 1 as [|ar test (r & row & Hr & Hrow & Hc) _ IH]; intros acc; simpl.
  - by rewrite app_nil_r.
  - rewrite (predict_one_ok _ _ _ _ _ _ _ Hr Hrow Hc). unfold Py.bind.
    rewrite IH. by rewrite <- app_assoc.
Qed.

(** C3.  When every held-out row names a user of the user index map, with a
    row in the reconstruction that the item index map stays within, the
    prediction loop returns one value per held-out row, in order: the cell
    [out[user_row, item_col]] when the item is in the item index map, and
    otherwise the mean of [out[user_row, :]], which for a row of defined cells
    is their sum divided by their number. *)
Theorem predict_cell_or_row_mean (out : list (list (option R)))
  (users_ind movie_arr : gmap string nat) (test : list rating_row) :
  Forall (fun ar => exists r row,
              users_ind !! userId ar = Some r /\ out !! r = Some row
              /\ forall c, movie_arr !! movieId ar = Some c -> c < length row) test ->
  exists arr_pred,
    predict out users_ind movie_arr test = Ok arr_pred
    /\ length arr_pred = length test
    /\ forall i ar r row,
        test !! i = Some ar ->
        users_ind !! userId ar = Some r -> out !! r = Some row ->
        (forall c, movie_arr !! movieId ar = Some c -> arr_pred !! i = row !! c)
        /\ (movie_arr !! movieId ar = None ->
            arr_pred !! i = Some (np_mean row)
            /\ forall vs, row = Some <$> vs -> vs <> [] ->
                          arr_pred !! i = Some (Some (row_mean vs))).
Proof.
  intros Htest. exists (map (predicted_value out users_ind movie_arr) test).
  split; [|split].
  - unfold predict. by rewrite (predict_loop_ok _ _ _ _ Htest).
  - by rewrite length_map.
  - intros i ar r row Hi Hr Hrow.
    rewrite list_lookup_fmap, Hi. simpl. unfold predicted_value, at_cell.
    rewrite Hr, Hrow. simpl. split.
    + intros c Hc. rewrite Hc. simpl.
      rewrite Forall_lookup in Htest.
      destruct (Htest _ _ Hi) as (r' & row' & Hr' & Hrow' & Hbound).
      assert (r' = r) as -> by congruence.
      assert (row' = row) as -> by congruence.
      destruct (lookup_lt_is_Some_2 row c (Hbound c Hc)) as [v Hv].
      by rewrite Hv.
    + intros Hnone. rewrite Hnone. split; [done|].
      intros vs -> Hvs. by rewrite np_mean_defined.
Qed.

Lemma predict_cell_or_row_mean_witness :
  exists arr_pred,
    predict Scenario.reconstruction Scenario.two_users Scenario.two_movies
            Scenario.held_out = Ok arr_pred
    /\ arr_pred !! 0 = Some (Some (Predictor.row_mean [2; 4]%R))
    /\ arr_pred !! 1 = Some (Some 2%R).
Proof.
  destruct (predict_cell_or_row_mean
              Scenario.reconstruction Scenario.two_users Scenario.two_movies
              Scenario.held_out) as (arr_pred & Hok & _ & Hpred).
  - repeat constructor; exists 1, [Some 2; Some 4]%R;
      (split; [reflexivity | split; [reflexivity|]]);
      intros c Hc; vm_compute in Hc; [discriminate | injection Hc as <-; simpl; lia].
  - exists arr_pred. split; [exact Hok|]. split.
    + destruct (Hpred 0 _ 1 [Some 2; Some 4]%R eq_refl eq_refl eq_refl) as [_ Hmean].
      destruct (Hmean eq_refl) as [_ Hdefined].
      by apply (Hdefined [2; 4]%R).
    + destruct (Hpred 1 _ 1 [Some 2; Some 4]%R eq_refl eq_refl eq_refl) as [Hcell _].
      by rewrite (Hcell 0 eq_refl).
Defined.

End PredictorFacts.

(** ** Topic Ranker *)

Module TopicRankerFacts.
Import TopicRanker.

(** *** The insertion sort is an argsort *)

Lemma insert_index_perm (t : list R) (i : nat) (sorted : list nat) :
  insert_index t i sorted ≡ₚ i :: sorted.
Proof.
  induction sorted as [|j sorted IH]; simpl; [done|].
  destruct (Rlt_dec (weight t i) (weight t j)); [done|].
  rewrite IH. apply Permutation_swap.
Qed.

Lemma insert_index_sorted (t : list R) (i : nat) (sorted : list nat) :
  StronglySorted (by_weight t) sorted ->
  StronglySorted (by_weight t) (insert_index t i sorted).
Proof.
  induction 1 as [|j sorted Hsorted IH Hj]; simpl.
  - repeat constructor.
  - destruct (Rlt_dec (weight t i) (weight t j)) as [Hlt|Hge].
    + constructor; [by constructor|]. constructor.
      * unfold by_weight. lra.
      * eapply Forall_impl; [exact Hj|]. unfold by_weight. intros; simpl in *. lra.
    + constructor; [done|]. rewrite insert_index_perm. constructor; [|done].
      unfold by_weight. lra.
Qed.

Lemma insertion_fold (t : list R) (l acc : list nat) :
  StronglySorted (by_weight t) acc ->
  fold_left (fun sorted i => insert_index t i sorted) l acc ≡ₚ acc ++ l
  /\ StronglySorted (by_weight t)
       (fold_left (fun sorted i => insert_index t i sorted) l acc).
Proof.
  revert acc. induction l as [|i l IH]; intros acc Hacc; simpl.
  - by rewrite app_nil_r.
  - destruct (IH (insert_index t i acc)) as [Hperm Hsorted].
    { by apply insert_index_sorted. }
    split; [|done]. rewrite Hperm, insert_index_perm. simpl.
    apply Permutation_middle.
Qed.

Lemma strongly_sorted_lookup {A : Type} (R : A -> A -> Prop) (l : list A)
  (p q : nat) (x y : A) :
  StronglySorted R l -> p < q -> l !! p = Some x -> l !! q = Some y -> R x y.
Proof.
  intros Hsorted. revert p q. induction Hsorted as [|z l _ IH Hz]; intros p q Hpq Hx Hy.
  - done.
  - destruct q as [|q]; [lia|]. simpl in Hy. destruct p as [|p]; simpl in Hx.
    + injection Hx as ->. rewrite Forall_lookup in Hz. eauto.
    + apply (IH p q); [lia|done|done].
Qed.

Lemma insertion_argsort_contract (t : list R) :
  argsort_contract (insertion_argsort t) t.
Proof.
  destruct (insertion_fold t (seq 0 (length t)) []) as [Hperm Hsorted];
    [constructor|].
  split; [exact Hperm|].
  intros p q i j Hpq Hi Hj.
  exact (strongly_sorted_lookup _ _ _ _ _ _ Hsorted Hpq Hi Hj).
Qed.

(** *** The selection *)

Lemma contract_length (a : list nat) (t : list R) :
  argsort_contract a t -> length a = length t.
Proof. intros [Hperm _]. by rewrite Hperm, length_seq. Qed.

Lemma contract_bound (a : list nat) (t : list R) (i : nat) :
  argsort_contract a t -> i ∈ a <-> i < length t.
Proof.
  intros [Hperm _]. rewrite Hperm, elem_of_seq. lia.
Qed.

Lemma last_reversed_lookup {A : Type} (n : nat) (a : list A) (p : nat) (x : A) :
  last_reversed n a !! p = Some x <->
  p < n /\ p < length a /\ a !! (length a - S p) = Some x.
Proof.
  unfold last_reversed. rewrite lookup_take. destruct (decide (p < n)) as [Hp|Hp].
  - destruct (decide (p < length a)) as [Hpa|Hpa].
    + rewrite reverse_lookup by done. split; [by intros ?|by intros (_ & _ & ?)].
    + rewrite lookup_ge_None_2 by (rewrite length_reverse; lia).
      split; [done|]. intros (_ & ? & _). lia.
  - split; [done|]. intros (? & _). lia.
Qed.

Lemma index_all_ok (vocab : list string) (sel : list nat) :
  Forall (fun i => i < length vocab) sel ->
  exists terms, mapM (fun i => Py.index vocab i) sel = Ok terms
                /\ Forall2 (fun i w => vocab !! i = Some w) sel terms.
Proof.
  induction 1 as [|i sel Hi _ (terms & Hok & Hterms)].
  - exists []. by split.
  - destruct (lookup_lt_is_Some_2 vocab i Hi) as [w Hw].
    exists (w :: terms). split; [|by constructor].
    simpl. rewrite Hok. unfold Py.index. rewrite Hw. reflexivity.
Qed.

Lemma insertion_argsort_ones :
  insertion_argsort [1; 1]%R = [0; 1].
Proof.
  unfold insertion_argsort. simpl. unfold weight. simpl.
  destruct (Rlt_dec 1 1) as [Hlt|_]; [lra | reflexivity].
Qed.

(** C8, as stated, fails: on two equal weights the larger index is listed
    first, so [show_topics] prints ["b a"] where the stated tie rule gives
    ["a b"]. *)
Lemma show_topics_tie_descending :
  show_topics insertion_argsort ["a"; "b"] num_top_words [[1; 1]%R] = Ok ["b a"]
  /\ ~ ties_ascending [1; 1]%R
         (last_reversed num_top_words (insertion_argsort [1; 1]%R)).
Proof.
  split.
  - unfold show_topics, top_words. simpl. by rewrite insertion_argsort_ones.
  - rewrite insertion_argsort_ones. intros Hties.
    specialize (Hties 0 1 1 0). simpl in Hties.
    assert (1 < 0) by (apply Hties; done || lia). lia.
Qed.

(** C8, amended.  For a weight row [t] with a vocabulary of the same length,
    when [np.argsort] returns the indices of [t] by ascending weight,
    [top_words] selects [min N (length t)] distinct indices, by descending
    weight, none of which weighs less than an index left out, and returns
    the vocabulary terms at these indices in that order; the order among
    equal weights is the reverse of the one [np.argsort] produced. *)
Theorem top_words_largest_descending (argsort : list R -> list nat)
  (vocab : list string) (n_top : nat) (t : list R) :
  argsort_contract (argsort t) t ->
  length vocab = length t ->
  let sel := last_reversed n_top (argsort t) in
  length sel = Nat.min n_top (length t)
  /\ NoDup sel
  /\ (forall p q i j, p < q -> sel !! p = Some i -> sel !! q = Some j ->
                      (weight t j <= weight t i)%R)
  /\ (forall i j, i ∈ sel -> j < length t -> j ∉ sel ->
                  (weight t j <= weight t i)%R)
  /\ (forall p q i j, p < q -> sel !! p = Some i -> sel !! q = Some j ->
        exists p' q', q' < p' /\ argsort t !! p' = Some i /\ argsort t !! q' = Some j)
  /\ exists terms, top_words argsort vocab n_top t = Ok terms
                   /\ Forall2 (fun i w => vocab !! i = Some w) sel terms.
Proof.
  intros Hcontract Hvocab sel.
  pose proof (contract_length _ _ Hcontract) as Hlen.
  destruct Hcontract as [Hperm Hsorted].
  assert (Hnodup : NoDup (argsort t)).
  { rewrite Hperm. apply NoDup_seq. }
  assert (Hrev : forall p q i j, p < q -> sel !! p = Some i -> sel !! q = Some j ->
            exists p' q', q' < p' /\ argsort t !! p' = Some i /\ argsort t !! q' = Some j).
  { intros p q i j Hpq (Hp & Hpa & Hi)%last_reversed_lookup
      (Hq & Hqa & Hj)%last_reversed_lookup.
    exists (length (argsort t) - S p), (length (argsort t) - S q).
    split; [lia|done]. }
  repeat split.
  - unfold sel, last_reversed. rewrite length_take, length_reverse. lia.
  - unfold sel, last_reversed.
    apply (sublist_NoDup _ (reverse (argsort t)));
      [by rewrite reverse_Permutation | apply sublist_take].
  - intros p q i j Hpq Hi Hj.
    destruct (Hrev _ _ _ _ Hpq Hi Hj) as (p' & q' & Hlt & Hi' & Hj').
    by apply (Hsorted q' p' j i).
  - intros i j (p & Hp)%list_elem_of_lookup Hj Hout.
    apply last_reversed_lookup in Hp as (Hpn & Hpa & Hi).
    assert (j ∈ argsort t) as (q & Hq)%list_elem_of_lookup.
    { rewrite Hperm, elem_of_seq. lia. }
    pose proof (lookup_lt_Some _ _ _ Hq) as Hqa.
    destruct (decide (q < length (argsort t) - S p)) as [Hlt|Hge].
    + by apply (Hsorted q (length (argsort t) - S p) j i).
    + destruct (decide (q = length (argsort t) - S p)) as [->|Hne].
      * assert (i = j) as -> by congruence. unfold weight. lra.
      * destruct Hout. apply list_elem_of_lookup.
        exists (length (argsort t) - S q). apply last_reversed_lookup.
        repeat split; [lia|lia|].
        replace (length (argsort t) - S (length (argsort t) - S q)) with q by lia.
        done.
  - exact Hrev.
  - apply index_all_ok. apply Forall_forall. intros i (p & Hp)%list_elem_of_lookup.
    apply last_reversed_lookup in Hp as (_ & _ & Hi).
    assert (i ∈ argsort t) as Hin by (apply list_elem_of_lookup; eauto).
    rewrite Hperm, elem_of_seq in Hin. lia.
Qed.

Lemma top_words_largest_descending_witness :
  exists terms,
    top_words insertion_argsort ["a"; "b"] 1 [1; 1]%R = Ok terms
    /\ Forall2 (fun i w => ["a"; "b"] !! i = Some w)
               (last_reversed 1 (insertion_argsort [1; 1]%R)) terms.
Proof.
  destruct (top_words_largest_descending insertion_argsort ["a"; "b"] 1 [1; 1]%R)
    as (_ & _ & _ & _ & _ & Hterms).
  - apply insertion_argsort_contract.
  - reflexivity.
  - exact Hterms.
Defined.

End TopicRankerFacts.

(** ** Matrix Builder *)

Module MatrixBuilderFacts.
Import MatrixBuilder.

(** *** Sets and index dicts *)

Lemma list_set_NoDup (l : list string) : NoDup (Py.list_set l).
Proof. unfold Py.list_set. apply NoDup_elements. Qed.

Lemma elem_of_list_set (l : list string) (x : string) :
  x ∈ Py.list_set l <-> x ∈ l.
Proof. unfold Py.list_set. by rewrite elem_of_elements, elem_of_list_to_set. Qed.

Lemma index_fold_absent (l : list string) (f : nat -> nat) (d : gmap string nat)
  (k : string) :
  k ∉ l ->
  fold_left Py.index_step (imap (fun i x => (f i, x)) l) d !! k = d !! k.
Proof.
  revert f d. induction l as [|x l IH]; intros f d Hk; [done|].
  apply not_elem_of_cons in Hk as [Hkx Hk]. simpl.
  rewrite (IH (f ∘ S)) by done. unfold Py.index_step. simpl.
  by rewrite lookup_insert_ne.
Qed.

Lemma index_fold_present (l : list string) (f : nat -> nat) (d : gmap string nat)
  (k : string) (i : nat) :
  NoDup l -> l !! i = Some k ->
  fold_left Py.index_step (imap (fun i x => (f i, x)) l) d !! k = Some (f i).
Proof.
  intros Hnodup. revert f d i. induction Hnodup as [|x l Hx _ IH]; intros f d i Hi;
    [done|].
  simpl. destruct i as [|i]; simpl in Hi.
  - injection Hi as ->. rewrite (index_fold_absent l (f ∘ S)) by done.
    unfold Py.index_step. simpl. by rewrite lookup_insert_eq.
  - by rewrite (IH (f ∘ S) _ i).
Qed.

Lemma index_dict_lookup (l : list string) (k : string) (i : nat) :
  NoDup l -> Py.index_dict l !! k = Some i <-> l !! i = Some k.
Proof.
  intros Hnodup. unfold Py.index_dict.
  change (fold_left Py.index_step (imap pair l) ∅)
    with (fold_left Py.index_step (imap (fun i x => (Nat.add 0 i, x)) l) ∅).
  split.
  - intros Hk. destruct (decide (k ∈ l)) as [Hin|Hout].
    + apply list_elem_of_lookup in Hin as [i' Hi'].
      rewrite (index_fold_present l (Nat.add 0) ∅ k i') in Hk by done.
      injection Hk as <-. done.
    + by rewrite index_fold_absent in Hk.
  - intros Hi. by rewrite (index_fold_present l (Nat.add 0) ∅ k i).
Qed.

Lemma index_dict_bijection (l keys : list string) :
  NoDup l -> (forall k, k ∈ l <-> k ∈ keys) ->
  bijection_onto (Py.index_dict l) keys (length l).
Proof.
  intros Hnodup Hkeys. repeat split.
  - intros Hk. apply Hkeys, list_elem_of_lookup in Hk as [i Hi].
    exists i. by apply index_dict_lookup.
  - intros [i Hi]. apply Hkeys, list_elem_of_lookup. exists i.
    by apply index_dict_lookup.
  - intros k i Hi%index_dict_lookup; [|done]. by apply lookup_lt_Some in Hi.
  - intros k k' i Hk%index_dict_lookup Hk'%index_dict_lookup; congruence.
  - intros i Hi. destruct (lookup_lt_is_Some_2 l i Hi) as [k Hk].
    exists k. by apply index_dict_lookup.
Qed.

(** *** Ordered dicts *)

Section OrderedDict.
Context {V : Type}.
Implicit Types (d : list (string * V)) (k : string) (v : V).

Lemma odict_get_elem d k : k ∈ d.*1 -> exists v, Py.odict_get d k = Ok v.
Proof.
  induction d as [|[k' v'] d IH]; simpl; [by intros ?%elem_of_nil|].
  intros Hk. destruct (decide (k' = k)); [eauto|].
  apply elem_of_cons in Hk as [->|Hk]; [done|]. by apply IH.
Qed.

Lemma odict_get_in d k v : Py.odict_get d k = Ok v -> (k, v) ∈ d.
Proof.
  induction d as [|[k' v'] d IH]; simpl; [done|].
  destruct (decide (k' = k)) as [->|Hne].
  - intros [= ->]. apply elem_of_cons. by left.
  - intros Hget. apply elem_of_cons. right. by apply IH.
Qed.

Lemma odict_get_lookup d k v (c : nat) :
  NoDup d.*1 -> d !! c = Some (k, v) -> Py.odict_get d k = Ok v.
Proof.
  revert c. induction d as [|[k' v'] d IH]; intros c Hnodup Hc; [done|].
  simpl in *. apply NoDup_cons in Hnodup as [Hk' Hnodup].
  destruct c as [|c]; simpl in Hc.
  - injection Hc as -> ->. by destruct (decide (k = k)).
  - destruct (decide (k' = k)) as [->|Hne]; [|by apply (IH c)].
    destruct Hk'. apply list_elem_of_fmap. exists (k, v). split; [done|].
    apply list_elem_of_lookup. eauto.
Qed.

Lemma odict_replace_keys d k v : (Py.odict_replace d k v).*1 = d.*1.
Proof.
  induction d as [|[k' v'] d IH]; csimpl; [done|].
  destruct (decide (k' = k)); csimpl; [done|]. by rewrite IH.
Qed.

Lemma odict_get_replace_eq d k v v0 :
  Py.odict_get d k = Ok v0 -> Py.odict_get (Py.odict_replace d k v) k = Ok v.
Proof.
  induction d as [|[k' v'] d IH]; simpl; [done|].
  destruct (decide (k' = k)) as [->|Hne]; simpl.
  - by destruct (decide (k = k)).
  - destruct (decide (k' = k)); [done|]. apply IH.
Qed.

Lemma odict_get_replace_ne d k k' v :
  k <> k' -> Py.odict_get (Py.odict_replace d k v) k' = Py.odict_get d k'.
Proof.
  intros Hne. induction d as [|[k0 v0] d IH]; simpl; [done|].
  destruct (decide (k0 = k)) as [->|Hne0]; simpl.
  - destruct (decide (k = k')); done.
  - destruct (decide (k0 = k')); [done|]. apply IH.
Qed.

Lemma odict_replace_Forall (P : string * V -> Prop) d k v :
  Forall P d -> (forall k', P (k', v)) -> Forall P (Py.odict_replace d k v).
Proof.
  intros Hd Hv. induction Hd as [|[k' v'] d Hkv Hd IH]; simpl; [constructor|].
  destruct (decide (k' = k)); constructor; auto.
Qed.

End OrderedDict.

(** *** The loop that stores the observations *)

Lemma store_ok (users_index : gmap string nat)
  (pd_dict : list (string * list (option R))) (row : rating_row) (n r : nat) :
  movieId row ∈ pd_dict.*1 -> users_index !! userId row = Some r -> r < n ->
  Forall (fun kc => length kc.2 = n) pd_dict ->
  exists col,
    Py.odict_get pd_dict (movieId row) = Ok col /\ length col = n
    /\ store users_index pd_dict row
       = Ok (Py.odict_replace pd_dict (movieId row) (<[r := Some (rating row)]> col)).
Proof.
  intros Hitem Huser Hr Hlen.
  destruct (odict_get_elem _ _ Hitem) as [col Hcol]. exists col.
  assert (Hn : length col = n).
  { apply odict_get_in in Hcol. rewrite Forall_forall in Hlen.
    exact (Hlen _ Hcol). }
  repeat split; [done|done|].
  unfold store. rewrite Hcol, PyFacts.bind_ok. unfold Py.getitem.
  rewrite Huser, PyFacts.bind_ok.
  destruct (decide (r < length col)); [done|lia].
Qed.

Lemma cell_of_store (users_index : gmap string nat)
  (pd_dict : list (string * list (option R))) (row : rating_row)
  (col : list (option R)) (r0 r : nat) (u it : string) :
  (forall k k' i, users_index !! k = Some i -> users_index !! k' = Some i -> k = k') ->
  Py.odict_get pd_dict (movieId row) = Ok col -> r0 < length col ->
  users_index !! userId row = Some r0 -> users_index !! u = Some r ->
  cell_of (Py.odict_replace pd_dict (movieId row) (<[r0 := Some (rating row)]> col)) it r
  = if decide (userId row = u /\ movieId row = it)
    then Some (Some (rating row)) else cell_of pd_dict it r.
Proof.
  intros Hinj Hcol Hr0 Hrow Hu. unfold cell_of.
  destruct (decide (movieId row = it)) as [<-|Hit].
  - rewrite (odict_get_replace_eq _ _ _ _ Hcol), Hcol.
    destruct (decide (userId row = u /\ movieId row = movieId row)) as [[<- _]|Hno].
    + assert (r0 = r) as -> by congruence. by rewrite list_lookup_insert_eq.
    + rewrite list_lookup_insert_ne; [done|]. intros ->.
      apply Hno. split; [|done]. by apply (Hinj _ _ r).
  - rewrite odict_get_replace_ne by done.
    destruct (decide (userId row = u /\ movieId row = it)) as [[_ ?]|_]; done.
Qed.

Lemma store_loop (users_index : gmap string nat) (n : nat) (data : list rating_row) :
  (forall k k' i, users_index !! k = Some i -> users_index !! k' = Some i -> k = k') ->
  forall pd_dict,
    Forall (fun row => movieId row ∈ pd_dict.*1
                       /\ exists r, users_index !! userId row = Some r /\ r < n) data ->
    Forall (fun kc => length kc.2 = n) pd_dict ->
    exists pd_dict',
      Py.for_each (store users_index) data pd_dict = Ok pd_dict'
      /\ pd_dict'.*1 = pd_dict.*1
      /\ Forall (fun kc => length kc.2 = n) pd_dict'
      /\ forall u it r, users_index !! u = Some r ->
           cell_of pd_dict' it r
           = match last_rating u it data with
             | Some v => Some (Some v)
             | None => cell_of pd_dict it r
             end.
Proof.
  intros Hinj. induction data as [|row data IH]; intros pd_dict Hdata Hlen.
  - exists pd_dict. by repeat split.
  - apply Forall_cons in Hdata as [(Hitem & r0 & Hr0 & Hlt) Hdata].
    destruct (store_ok _ _ _ _ _ Hitem Hr0 Hlt Hlen) as (col & Hcol & Hn & Hstore).
    set (pd1 := Py.odict_replace pd_dict (movieId row)
                  (<[r0 := Some (rating row)]> col)) in *.
    assert (Hkeys1 : pd1.*1 = pd_dict.*1) by apply odict_replace_keys.
    assert (Hlen1 : Forall (fun kc => length kc.2 = n) pd1).
    { apply odict_replace_Forall; [done|]. intros k'. simpl.
      by rewrite length_insert. }
    destruct (IH pd1) as (pd' & Hloop & Hkeys & Hlen' & Hcells).
    { eapply Forall_impl; [exact Hdata|]. intros row' [? ?]. by rewrite Hkeys1. }
    { done. }
    exists pd'. split; [|split; [|split]].
    + simpl. rewrite Hstore. exact Hloop.
    + by rewrite Hkeys.
    + done.
    + intros u it r Hu. rewrite (Hcells u it r Hu). simpl.
      destruct (last_rating u it data) as [v|]; [done|].
      subst pd1. rewrite (cell_of_store users_index _ _ _ r0 r u it); try done.
      * by destruct (decide (userId row = u /\ movieId row = it)).
      * lia.
Qed.

Lemma last_rating_in (data : list rating_row) (row : rating_row) :
  row ∈ data -> is_Some (last_rating (userId row) (movieId row) data).
Proof.
  induction data as [|row' data IH]; [by intros ?%elem_of_nil|].
  intros [->|Hin]%elem_of_cons; simpl.
  - destruct (last_rating (userId row') (movieId row') data); [eauto|].
    destruct (decide (userId row' = userId row' /\ movieId row' = movieId row'))
      as [_|Hno]; [eauto | by destruct Hno].
  - destruct (IH Hin) as [v ->]. eauto.
Qed.

Lemma cell_of_fresh (items : list string) (n r : nat) (it : string) :
  it ∈ items -> r < n ->
  cell_of (map (fun item => (item, replicate n (@None R))) items) it r = Some None.
Proof.
  intros Hit Hr. unfold cell_of.
  induction items as [|item items IH]; [by apply elem_of_nil in Hit|].
  simpl. destruct (decide (item = it)) as [_|Hne].
  - by apply lookup_replicate_2.
  - apply IH. apply elem_of_cons in Hit as [->|]; done.
Qed.

Lemma fresh_keys (items : list string) (n : nat) :
  (map (fun item => (item, replicate n (@None R))) items).*1 = items.
Proof.
  induction items as [|item items IH]; csimpl; [done|]. by rewrite IH.
Qed.

Lemma DataFrame_ok (pd_dict : list (string * list (option R))) (n : nat) :
  Forall (fun kc => length kc.2 = n) pd_dict -> (pd_dict = [] -> n = 0) ->
  DataFrame pd_dict
  = Ok {| index := [];
          columns := pd_dict.*1;
          values := map (fun i => map (fun kc => default None (kc.2 !! i)) pd_dict)
                        (seq 0 n) |}.
Proof.
  intros Hlen Hempty. unfold DataFrame.
  assert (Hn : length (default [] (snd <$> head pd_dict)) = n).
  { destruct pd_dict as [|[k c] d]; simpl.
    - by rewrite Hempty.
    - by inversion Hlen. }
  rewrite Hn. by destruct (decide (Forall (fun kc => length kc.2 = n) pd_dict)).
Qed.

(** C6.  For every sequence of observations [create_utility_matrix] returns
    a frame and two index maps: the user index map is one-to-one from the
    user ids of the observations onto the row numbers, the item index map is
    one-to-one from the item ids onto the column numbers, the cell of a user
    and an item holds the value of the last observation of that pair and is
    missing when there is none; so the pair of every observation has one
    cell, which holds the value of the last observation of the pair. *)
Theorem create_utility_matrix_index_maps (data : list rating_row) :
  exists X users_index items_index,
    create_utility_matrix data = Ok (X, users_index, items_index)
    /\ SVD.shape (values X) (length (index X)) (length (columns X))
    /\ bijection_onto users_index (map userId data) (length (index X))
    /\ bijection_onto items_index (map movieId data) (length (columns X))
    /\ (forall u it r c,
          users_index !! u = Some r -> items_index !! it = Some c ->
          SVD.at_ (values X) r c = Some (last_rating u it data))
    /\ (forall row, row ∈ data ->
          exists r c v,
            users_index !! userId row = Some r
            /\ items_index !! movieId row = Some c
            /\ last_rating (userId row) (movieId row) data = Some v
            /\ SVD.at_ (values X) r c = Some (Some v)).
Proof.
  unfold create_utility_matrix.
  set (users := Py.list_set (map userId data)).
  set (items := Py.list_set (map movieId data)).
  set (ui := Py.index_dict users).
  set (n := length users).
  set (pd0 := map (fun item => (item, replicate n (@None R))) items).
  assert (Husers : NoDup users) by apply list_set_NoDup.
  assert (Hitems : NoDup items) by apply list_set_NoDup.
  assert (Hui : bijection_onto ui (map userId data) n).
  { apply index_dict_bijection; [done|]. intros k. apply elem_of_list_set. }
  assert (Hii : bijection_onto (Py.index_dict items) (map movieId data) (length items)).
  { apply index_dict_bijection; [done|]. intros k. apply elem_of_list_set. }
  destruct Hui as (Hui_dom & Hui_lt & Hui_inj & Hui_surj).
  destruct (store_loop ui n data Hui_inj pd0) as (pd & Hloop & Hkeys & Hlen & Hcells).
  { apply Forall_forall. intros row Hrow. split.
    - subst pd0. rewrite fresh_keys. apply elem_of_list_set.
      apply list_elem_of_fmap. eauto.
    - assert (is_Some (ui !! userId row)) as [r Hr].
      { apply Hui_dom. apply list_elem_of_fmap. eauto. }
      eauto. }
  { subst pd0. apply List.Forall_map, Forall_forall. intros item _. simpl.
    apply length_replicate. }
  unfold pd0 in Hkeys. rewrite fresh_keys in Hkeys.
  assert (Hempty : pd = [] -> n = 0).
  { intros ->. simpl in Hkeys. subst n users.
    destruct data as [|row data]; [done|].
    assert (movieId row ∈ items) as Hin.
    { apply elem_of_list_set. simpl. apply elem_of_cons. by left. }
    rewrite <- Hkeys in Hin. by apply elem_of_nil in Hin. }
  rewrite Hloop, PyFacts.bind_ok, (DataFrame_ok pd n Hlen Hempty), PyFacts.bind_ok.
  unfold set_index. simpl.
  destruct (decide (length users
                    = length (map (fun i => map (fun kc => default None (kc.2 !! i)) pd)
                                  (seq 0 n)))) as [_|Hno].
  2:{ destruct Hno. by rewrite length_map, length_seq. }
  rewrite PyFacts.bind_ok. simpl. rewrite Hkeys.
  eexists _, ui, (Py.index_dict items). split; [reflexivity|]. simpl.
  assert (Hcell : forall u it r c,
             ui !! u = Some r -> Py.index_dict items !! it = Some c ->
             SVD.at_ (map (fun i => map (fun kc => default None (kc.2 !! i)) pd)
                          (seq 0 n)) r c
             = Some (last_rating u it data)).
  { intros u it r c Hu Hit.
    pose proof (Hui_lt _ _ Hu) as Hr.
    apply index_dict_lookup in Hit; [|done].
    assert (exists col, pd !! c = Some (it, col)) as [col Hcol].
    { rewrite <- Hkeys, list_lookup_fmap in Hit.
      destruct (pd !! c) as [[k col]|]; [|done]. simpl in Hit.
      injection Hit as ->. eauto. }
    assert (Hget : Py.odict_get pd it = Ok col).
    { apply (odict_get_lookup pd it col c); [by rewrite Hkeys | done]. }
    specialize (Hcells u it r Hu). unfold cell_of at 1 in Hcells.
    rewrite Hget in Hcells.
    assert (Hval : col !! r = Some (last_rating u it data)).
    { rewrite Hcells. destruct (last_rating u it data); [done|].
      subst pd0. apply cell_of_fresh; [|done].
      apply list_elem_of_lookup. eauto. }
    apply ImputerFacts.at_Some.
    exists (map (fun kc => default None (kc.2 !! r)) pd). split.
    - by rewrite list_lookup_fmap, lookup_seq_lt.
    - rewrite list_lookup_fmap, Hcol. simpl. by rewrite Hval. }
  split; [|split; [|split; [|split]]].
  - split; [by rewrite length_map, length_seq|].
    apply List.Forall_map, Forall_forall. intros i _.
    by rewrite length_map, <- Hkeys, length_fmap.
  - exact (conj Hui_dom (conj Hui_lt (conj Hui_inj Hui_surj))).
  - exact Hii.
  - exact Hcell.
  - intros row Hrow.
    assert (is_Some (ui !! userId row)) as [r Hr].
    { apply Hui_dom, list_elem_of_fmap. eauto. }
    destruct Hii as (Hii_dom & _).
    assert (is_Some (Py.index_dict items !! movieId row)) as [c Hc].
    { apply Hii_dom, list_elem_of_fmap. eauto. }
    destruct (last_rating_in _ _ Hrow) as [v Hv].
    exists r, c, v. repeat split; try done.
    by rewrite (Hcell _ _ _ _ Hr Hc), Hv.
Qed.

(** On [rated_twice] the cell of user ["1"] and item ["10"] holds the second
    rating of the pair. *)
Lemma create_utility_matrix_index_maps_witness :
  exists X users_index items_index r c,
    create_utility_matrix Scenario.rated_twice = Ok (X, users_index, items_index)
    /\ users_index !! "1" = Some r /\ items_index !! "10" = Some c
    /\ SVD.at_ (values X) r c = Some (Some 3%R).
Proof.
  destruct (create_utility_matrix_index_maps Scenario.rated_twice)
    as (X & ui & ii & Hok & _ & _ & _ & _ & Hrows).
  destruct (Hrows {| userId := "1"; movieId := "10"; rating := 5; timestamp := 0 |})
    as (r & c & v & Hr & Hc & Hv & Hcell).
  { apply elem_of_cons. by left. }
  exists X, ui, ii, r, c. repeat split; try done.
  simpl in Hv. injection Hv as <-. exact Hcell.
Defined.

End MatrixBuilderFacts.

(** ** Train and test split *)

Module SplitFacts.
Import Split.

Lemma elem_of_unique_from (seen l : list string) (x : string) :
  x ∈ unique_from seen l <-> x ∈ l /\ x ∉ seen.
Proof.
  revert seen. induction l as [|y l IH]; intros seen; simpl.
  - split; [by intros ?%elem_of_nil | by intros [?%elem_of_nil _]].
  - destruct (decide (y ∈ seen)) as [Hy|Hy].
    + rewrite IH, elem_of_cons. split; [intros [? ?]; auto|].
      intros [[->|Hx] Hseen]; done.
    + rewrite elem_of_cons, IH, !elem_of_cons. split.
      * intros [->|(Hx & Hseen)]; [auto|]. split; [auto|].
        intros Hin. apply Hseen. by right.
      * intros [[->|Hx] Hseen]; [auto|].
        destruct (decide (x = y)) as [->|Hne]; [auto|].
        right. split; [done|]. by intros [?|?].
Qed.

Lemma NoDup_unique_from (seen l : list string) : NoDup (unique_from seen l).
Proof.
  revert seen. induction l as [|y l IH]; intros seen; simpl; [constructor|].
  destruct (decide (y ∈ seen)); [apply IH|].
  constructor; [|apply IH]. rewrite elem_of_unique_from.
  intros [_ Hy]. apply Hy. by left.
Qed.

Lemma elem_of_unique (l : list string) (x : string) : x ∈ unique l <-> x ∈ l.
Proof.
  unfold unique. rewrite elem_of_unique_from. split; [by intros [? _]|].
  intros Hx. split; [done|]. by intros ?%elem_of_nil.
Qed.

Lemma NoDup_unique (l : list string) : NoDup (unique l).
Proof. apply NoDup_unique_from. Qed.

Lemma test_size_lt (n : nat) : 0 < n -> test_size n < n.
Proof. intros Hn. unfold test_size. apply Nat.div_lt; lia. Qed.

Lemma test_size_bound (n : nat) : 2 <= n -> test_size n + 2 <= n.
Proof.
  intros Hn. unfold test_size.
  destruct (decide (n < 5)) as [Hsmall|Hbig].
  - rewrite Nat.div_small by done. lia.
  - pose proof (Nat.div_mod_eq n 5) as Hdiv.
    pose proof (Nat.mod_upper_bound n 5) as Hmod.
    generalize dependent (n / 5). generalize dependent (n mod 5). intros; lia.
Qed.

Lemma test_start (n : nat) :
  0 < n ->
  Py.slice_stop (Z.of_nat n - 1 - Z.of_nat (test_size n)) n = n - 1 - test_size n.
Proof.
  intros Hn. pose proof (test_size_lt n Hn) as Hlt.
  generalize dependent (test_size n). intros q Hq. unfold Py.slice_stop.
  destruct (Z.ltb_spec (Z.of_nat n - 1 - Z.of_nat q) 0); lia.
Qed.

Lemma train_stop (n : nat) :
  0 < n ->
  Py.slice_stop (Z.of_nat n - 2 - Z.of_nat (test_size n)) n = n - 2 - test_size n.
Proof.
  intros Hn. destruct (decide (2 <= n)) as [H2|H2].
  - pose proof (test_size_bound n H2) as Hle.
    generalize dependent (test_size n). intros q Hq. unfold Py.slice_stop.
    destruct (Z.ltb_spec (Z.of_nat n - 2 - Z.of_nat q) 0); lia.
  - assert (n = 1) as -> by lia. reflexivity.
Qed.

Section Loop.

Variable sort_values : list rating_row -> list rating_row.
Hypothesis sort_values_sorts : sorts sort_values.

Lemma length_sort_values (l : list rating_row) : length (sort_values l) = length l.
Proof. destruct sort_values_sorts as [Hperm _]. by rewrite Hperm. Qed.

Lemma split_user_test (temp : list rating_row) :
  0 < length temp ->
  (split_user sort_values temp).1
  = drop (length temp - 1 - test_size (length temp)) (sort_values temp).
Proof.
  intros Hn. unfold split_user, iloc_from. simpl.
  by rewrite length_sort_values, test_start.
Qed.

Lemma split_user_train (temp : list rating_row) :
  0 < length temp ->
  (split_user sort_values temp).2
  = take (length temp - 2 - test_size (length temp)) (sort_values temp).
Proof.
  intros Hn. unfold split_user, iloc_to, Py.slice0. simpl.
  by rewrite length_sort_values, train_stop.
Qed.

(** The sorted rows of one user are the train rows, then at most one row
    that goes to neither frame, then the test rows. *)
Lemma split_user_partition (temp : list rating_row) :
  0 < length temp ->
  exists dropped,
    sort_values temp
    = (split_user sort_values temp).2 ++ dropped ++ (split_user sort_values temp).1
    /\ length (split_user sort_values temp).1 = test_size (length temp) + 1
    /\ length (split_user sort_values temp).2
       = length temp - 2 - test_size (length temp)
    /\ length dropped = if decide (2 <= length temp) then 1 else 0.
Proof.
  intros Hn. rewrite split_user_test, split_user_train by done.
  set (n := length temp) in *. set (s := sort_values temp).
  assert (Hs : length s = n) by apply length_sort_values.
  assert (Hts : test_size n < n) by (by apply test_size_lt).
  exists (take (if decide (2 <= n) then 1 else 0) (drop (n - 2 - test_size n) s)).
  repeat split.
  - rewrite <- (take_drop (n - 2 - test_size n) s) at 1. f_equal.
    rewrite <- (take_drop (if decide (2 <= n) then 1 else 0)
                          (drop (n - 2 - test_size n) s)) at 1.
    f_equal. rewrite drop_drop. f_equal.
    destruct (decide (2 <= n)) as [H2|H2]; [|lia].
    pose proof (test_size_bound n H2). lia.
  - rewrite length_drop, Hs. lia.
  - rewrite length_take, Hs. lia.
  - rewrite length_take, length_drop, Hs.
    destruct (decide (2 <= n)) as [H2|H2]; [|lia].
    pose proof (test_size_bound n H2). lia.
Qed.

(** In one user's rows no train row is later than a test row. *)
Lemma split_user_chronological (temp : list rating_row) (a b : rating_row) :
  0 < length temp ->
  a ∈ (split_user sort_values temp).2 -> b ∈ (split_user sort_values temp).1 ->
  (timestamp a <= timestamp b)%Z.
Proof.
  intros Hn Ha Hb.
  destruct (split_user_partition temp Hn) as (dropped & Hs & _).
  destruct sort_values_sorts as [_ Hsorted]. specialize (Hsorted temp).
  rewrite Hs in Hsorted.
  apply (StronglySorted_app_1_elem_of by_timestamp _ _ a b Hsorted Ha).
  apply elem_of_app. by right.
Qed.

Lemma split_user_rows (temp : list rating_row) (row : rating_row) :
  row ∈ (split_user sort_values temp).1 \/ row ∈ (split_user sort_values temp).2 ->
  row ∈ temp.
Proof.
  destruct sort_values_sorts as [Hperm _].
  unfold split_user, iloc_from, iloc_to, Py.slice0. simpl. intros [Hin|Hin].
  - rewrite <- (Hperm temp). exact (elem_of_sublist _ _ _ Hin (sublist_drop _ _)).
  - rewrite <- (Hperm temp). exact (elem_of_sublist _ _ _ Hin (sublist_take _ _)).
Qed.

Lemma rows_of_all (u : string) (l : list rating_row) :
  Forall (fun row => userId row = u) l -> rows_of u l = l.
Proof.
  unfold rows_of. induction 1 as [|row l Hrow _ IH]; [done|].
  by rewrite filter_cons_True, IH.
Qed.

Lemma rows_of_none (u : string) (l : list rating_row) :
  Forall (fun row => userId row <> u) l -> rows_of u l = [].
Proof.
  unfold rows_of. induction 1 as [|row l Hrow _ IH]; [done|].
  by rewrite filter_cons_False, IH.
Qed.

Lemma rows_of_split_user (data : list rating_row) (u u' : string) :
  rows_of u (split_user sort_values (rows_of u' data)).1
  = (if decide (u = u') then (split_user sort_values (rows_of u' data)).1 else [])
  /\ rows_of u (split_user sort_values (rows_of u' data)).2
     = (if decide (u = u') then (split_user sort_values (rows_of u' data)).2 else []).
Proof.
  assert (Huser : forall row,
             row ∈ (split_user sort_values (rows_of u' data)).1
             \/ row ∈ (split_user sort_values (rows_of u' data)).2 ->
             userId row = u').
  { intros row Hrow%split_user_rows. unfold rows_of in Hrow.
    by apply list_elem_of_filter in Hrow as [? _]. }
  destruct (decide (u = u')) as [->|Hne]; split.
  - apply rows_of_all, Forall_forall. auto.
  - apply rows_of_all, Forall_forall. auto.
  - apply rows_of_none, Forall_forall. intros row Hrow. rewrite (Huser row); auto.
  - apply rows_of_none, Forall_forall. intros row Hrow. rewrite (Huser row); auto.
Qed.

Lemma rows_of_app (u : string) (l1 l2 : list rating_row) :
  rows_of u (l1 ++ l2) = rows_of u l1 ++ rows_of u l2.
Proof. apply filter_app. Qed.

Lemma split_step_fst (data : list rating_row)
  (acc : list rating_row * list rating_row) (u : string) :
  (split_step sort_values data acc u).1
  = acc.1 ++ (split_user sort_values (rows_of u data)).1.
Proof. reflexivity. Qed.

Lemma split_step_snd (data : list rating_row)
  (acc : list rating_row * list rating_row) (u : string) :
  (split_step sort_values data acc u).2
  = acc.2 ++ (split_user sort_values (rows_of u data)).2.
Proof. reflexivity. Qed.

(** The rows of one user in the two frames after the loop over [users]. *)
Lemma split_loop_rows (data : list rating_row) (u : string) (users : list string) :
  NoDup users ->
  forall acc,
    rows_of u (fold_left (split_step sort_values data) users acc).1
    = rows_of u acc.1
      ++ (if decide (u ∈ users)
          then (split_user sort_values (rows_of u data)).1 else [])
    /\ rows_of u (fold_left (split_step sort_values data) users acc).2
       = rows_of u acc.2
         ++ (if decide (u ∈ users)
             then (split_user sort_values (rows_of u data)).2 else []).
Proof.
  induction 1 as [|u' users Hu' _ IH]; intros acc.
  - simpl. by rewrite !app_nil_r.
  - simpl fold_left. destruct (IH (split_step sort_values data acc u')) as [IH1 IH2].
    rewrite IH1, IH2, !split_step_fst, !split_step_snd, !rows_of_app.
    destruct (rows_of_split_user data u u') as [Hte Htr]. rewrite Hte, Htr.
    rewrite <- !app_assoc.
    destruct (decide (u = u')) as [->|Hne].
    + destruct (decide (u' ∈ users)) as [?|_]; [done|].
      destruct (decide (u' ∈ u' :: users)) as [_|Hno].
      * by rewrite !app_nil_r.
      * destruct Hno. apply elem_of_cons. by left.
    + destruct (decide (u ∈ users)) as [Hin|Hout];
        destruct (decide (u ∈ u' :: users)) as [Hin'|Hout']; try done.
      * destruct Hout'. apply elem_of_cons. by right.
      * apply elem_of_cons in Hin' as [?|?]; done.
Qed.

Lemma train_test_split_rows (data : list rating_row) (u : string) :
  u ∈ map userId data ->
  rows_of u (train_test_split sort_values data).1
  = (split_user sort_values (rows_of u data)).1
  /\ rows_of u (train_test_split sort_values data).2
     = (split_user sort_values (rows_of u data)).2.
Proof.
  intros Hu. unfold train_test_split.
  destruct (split_loop_rows data u (unique (map userId data))
              (NoDup_unique _) ([], [])) as [H1 H2].
  rewrite H1, H2.
  destruct (decide (u ∈ unique (map userId data))) as [_|Hno]; [done|].
  destruct Hno. by apply elem_of_unique.
Qed.

Lemma rows_of_nonempty (data : list rating_row) (u : string) :
  u ∈ map userId data -> 0 < length (rows_of u data).
Proof.
  intros (row & -> & Hrow)%list_elem_of_fmap.
  assert (row ∈ rows_of (userId row) data) as Hin.
  { unfold rows_of. by apply list_elem_of_filter. }
  destruct (rows_of (userId row) data); [by apply elem_of_nil in Hin | simpl; lia].
Qed.

End Loop.

#[local] Instance by_timestamp_transitive : Transitive by_timestamp.
Proof. unfold by_timestamp. intros a b c. lia. Qed.

#[local] Instance by_timestamp_total : Total by_timestamp.
Proof. unfold by_timestamp. intros a b. lia. Qed.

(** A merge sort on the timestamps is one such sort. *)
Lemma merge_sort_sorts : sorts (merge_sort by_timestamp).
Proof.
  split; intros l.
  - apply merge_sort_Permutation.
  - apply StronglySorted_merge_sort; apply _.
Qed.

(** X1.  For every user of the table, the user's rows in timestamp order
    are the user's train rows, then one row that reaches neither frame (none
    when the user has a single row), then the user's test rows; of [n] rows,
    [n div 5 + 1] go to test and [n - 2 - n div 5] to train. *)
Theorem train_test_split_per_user
  (sort_values : list rating_row -> list rating_row)
  (data : list rating_row) (u : string) :
  sorts sort_values -> u ∈ map userId data ->
  exists dropped,
    sort_values (rows_of u data)
    = rows_of u (train_test_split sort_values data).2 ++ dropped
      ++ rows_of u (train_test_split sort_values data).1
    /\ length (rows_of u (train_test_split sort_values data).1)
       = length (rows_of u data) / 5 + 1
    /\ length (rows_of u (train_test_split sort_values data).2)
       = length (rows_of u data) - 2 - length (rows_of u data) / 5
    /\ length dropped = if decide (2 <= length (rows_of u data)) then 1 else 0.
Proof.
  intros Hsorts Hu.
  destruct (train_test_split_rows sort_values Hsorts data u Hu) as [-> ->].
  apply (split_user_partition sort_values Hsorts).
  by apply rows_of_nonempty.
Qed.

Lemma train_test_split_per_user_witness :
  exists dropped,
    merge_sort by_timestamp (rows_of "1" Scenario.ratings)
    = rows_of "1" (train_test_split (merge_sort by_timestamp) Scenario.ratings).2
      ++ dropped
      ++ rows_of "1" (train_test_split (merge_sort by_timestamp) Scenario.ratings).1
    /\ length (rows_of "1" (train_test_split (merge_sort by_timestamp)
                                             Scenario.ratings).1)
       = length (rows_of "1" Scenario.ratings) / 5 + 1
    /\ length (rows_of "1" (train_test_split (merge_sort by_timestamp)
                                             Scenario.ratings).2)
       = length (rows_of "1" Scenario.ratings) - 2
         - length (rows_of "1" Scenario.ratings) / 5
    /\ length dropped
       = if decide (2 <= length (rows_of "1" Scenario.ratings)) then 1 else 0.
Proof.
  apply train_test_split_per_user.
  - apply merge_sort_sorts.
  - simpl. apply elem_of_cons. by left.
Defined.

(** X2.  Within one user no train row has a later timestamp than a test
    row. *)
Theorem train_not_later_than_test
  (sort_values : list rating_row -> list rating_row)
  (data : list rating_row) (a b : rating_row) :
  sorts sort_values ->
  a ∈ (train_test_split sort_values data).2 ->
  b ∈ (train_test_split sort_values data).1 ->
  userId a = userId b ->
  (timestamp a <= timestamp b)%Z.
Proof.
  intros Hsorts Ha Hb Hab.
  assert (Hin_a : a ∈ rows_of (userId a) (train_test_split sort_values data).2).
  { unfold rows_of. by apply list_elem_of_filter. }
  assert (Hin_b : b ∈ rows_of (userId a) (train_test_split sort_values data).1).
  { unfold rows_of. by apply list_elem_of_filter. }
  destruct (decide (userId a ∈ map userId data)) as [Hu|Hu].
  - destruct (train_test_split_rows sort_values Hsorts data _ Hu) as [Hte Htr].
    rewrite Htr in Hin_a. rewrite Hte in Hin_b.
    apply (split_user_chronological sort_values Hsorts (rows_of (userId a) data));
      [by apply rows_of_nonempty | done | done].
  - exfalso. unfold train_test_split in Hin_a.
    destruct (split_loop_rows sort_values Hsorts data (userId a)
                (unique (map userId data)) (NoDup_unique _) ([], [])) as [_ H2].
    rewrite H2 in Hin_a.
    destruct (decide (userId a ∈ unique (map userId data))) as [Hin|_].
    + exact (Hu (proj1 (elem_of_unique _ _) Hin)).
    + by apply elem_of_nil in Hin_a.
Qed.

Lemma train_not_later_than_test_witness :
  let a := {| userId := "1"; movieId := "32"; rating := 4; timestamp := 10 |} in
  let b := {| userId := "1"; movieId := "50"; rating := 2; timestamp := 50 |} in
  a ∈ (train_test_split (merge_sort by_timestamp) Scenario.ratings).2
  /\ b ∈ (train_test_split (merge_sort by_timestamp) Scenario.ratings).1
  /\ (timestamp a <= timestamp b)%Z.
Proof.
  intros a b.
  assert (Ha : a ∈ (train_test_split (merge_sort by_timestamp) Scenario.ratings).2)
    by (vm_compute; constructor).
  assert (Hb : b ∈ (train_test_split (merge_sort by_timestamp) Scenario.ratings).1)
    by (vm_compute; constructor).
  split; [exact Ha|]. split; [exact Hb|].
  apply (train_not_later_than_test (merge_sort by_timestamp) Scenario.ratings a b);
    [apply merge_sort_sorts | exact Ha | exact Hb | reflexivity].
Defined.

(** X3.  Every row of the two frames is a row of the table: the split adds
    nothing. *)
Theorem train_test_split_subset
  (sort_values : list rating_row -> list rating_row)
  (data : list rating_row) (row : rating_row) :
  sorts sort_values ->
  row ∈ (train_test_split sort_values data).1
  \/ row ∈ (train_test_split sort_values data).2 ->
  row ∈ data.
Proof.
  intros Hsorts Hrow.
  destruct (split_loop_rows sort_values Hsorts data (userId row)
              (unique (map userId data)) (NoDup_unique _) ([], [])) as [H1 H2].
  fold (train_test_split sort_values data) in H1, H2.
  assert (Hpiece : row ∈ (split_user sort_values (rows_of (userId row) data)).1
                   \/ row ∈ (split_user sort_values (rows_of (userId row) data)).2).
  { destruct Hrow as [Hrow|Hrow]; [left|right].
    - assert (Hin : row ∈ rows_of (userId row) (train_test_split sort_values data).1)
        by (unfold rows_of; by apply list_elem_of_filter).
      rewrite H1 in Hin.
      destruct (decide (userId row ∈ unique (map userId data)));
        [done | by apply elem_of_nil in Hin].
    - assert (Hin : row ∈ rows_of (userId row) (train_test_split sort_values data).2)
        by (unfold rows_of; by apply list_elem_of_filter).
      rewrite H2 in Hin.
      destruct (decide (userId row ∈ unique (map userId data)));
        [done | by apply elem_of_nil in Hin]. }
  apply (split_user_rows sort_values Hsorts) in Hpiece.
  unfold rows_of in Hpiece. by apply list_elem_of_filter in Hpiece as [_ ?].
Qed.

Lemma train_test_split_subset_witness :
  {| userId := "1"; movieId := "32"; rating := 4; timestamp := 10 |}%R
  ∈ Scenario.ratings.
Proof.
  apply (train_test_split_subset (merge_sort by_timestamp)).
  - apply merge_sort_sorts.
  - right. vm_compute. constructor.
Defined.

End SplitFacts.

(** ** The pipeline: split, matrix, predictions *)

Module PipelineFacts.
Import MatrixBuilder Predictor Split.
Import MatrixBuilderFacts.

(** *** The prediction loop *)

Lemma predict_one_absent (out : list (list (option R)))
  (users_ind movie_arr : gmap string nat) (acc : list (option R)) (ar : rating_row) :
  users_ind !! userId ar = None ->
  predict_one out users_ind movie_arr acc ar = Raise KeyError.
Proof.
  intros Habsent. unfold predict_one, Py.getitem. rewrite Habsent.
  by destruct (movie_arr !! movieId ar).
Qed.

Lemma predict_one_appends (out : list (list (option R)))
  (users_ind movie_arr : gmap string nat) (acc res : list (option R))
  (ar : rating_row) :
  predict_one out users_ind movie_arr acc ar = Ok res ->
  exists v, res = acc ++ [v].
Proof.
  unfold predict_one, Py.getitem, Py.index.
  destruct (movie_arr !! movieId ar) as [c|];
    destruct (users_ind !! userId ar) as [r|]; simpl; try done;
    destruct (out !! r) as [row|]; simpl; try done.
  - destruct (row !! c) as [v|]; simpl; [|done]. intros [= <-]. eauto.
  - intros [= <-]. eauto.
Qed.

Lemma predict_loop_length (out : list (list (option R)))
  (users_ind movie_arr : gmap string nat) (test : list rating_row) :
  forall acc res,
    Py.for_each (predict_one out users_ind movie_arr) test acc = Ok res ->
    length res = length acc + length test.
Proof.
  induction test as [|ar test IH]; intros acc res; simpl.
  - intros [= <-]. lia.
  - destruct (predict_one out users_ind movie_arr acc ar) as [acc'|e] eqn:Hone;
      simpl; [|done].
    intros Hloop. apply IH in Hloop.
    apply predict_one_appends in Hone as [v ->].
    rewrite length_app in Hloop. simpl in Hloop. lia.
Qed.

Lemma predict_loop_outcome (out : list (list (option R)))
  (users_ind movie_arr : gmap string nat) (test : list rating_row) :
  in_range out users_ind movie_arr ->
  forall acc,
    (Forall (fun ar => is_Some (users_ind !! userId ar)) test ->
     exists res, Py.for_each (predict_one out users_ind movie_arr) test acc = Ok res)
    /\ (Exists (fun ar => users_ind !! userId ar = None) test ->
        Py.for_each (predict_one out users_ind movie_arr) test acc = Raise KeyError).
Proof.
  intros Hrange. induction test as [|ar test IH]; intros acc.
  - split; [eauto | by intros ?%Exists_nil].
  - destruct (users_ind !! userId ar) as [r|] eqn:Hr.
    + destruct (Hrange _ _ Hr) as (row & Hrow & Hcols).
      assert (Hone : predict_one out users_ind movie_arr acc ar
                     = Ok (acc ++ [predicted_value out users_ind movie_arr ar])).
      { apply (PredictorFacts.predict_one_ok _ _ _ _ _ r row); eauto. }
      simpl. rewrite Hone. simpl.
      destruct (IH (acc ++ [predicted_value out users_ind movie_arr ar])) as [IHok IHerr].
      split.
      * intros [_ Htest]%Forall_cons. by apply IHok.
      * intros [Habs|Htest]%Exists_cons; [congruence | by apply IHerr].
    + simpl. rewrite (predict_one_absent _ _ _ _ _ Hr). split; [|done].
      intros [[? ?] _]%Forall_cons. congruence.
Qed.

(** X4.  When the prediction loop returns, it returns one prediction per
    held-out row. *)
Theorem predict_one_per_row (out : list (list (option R)))
  (users_ind movie_arr : gmap string nat) (test : list rating_row)
  (arr_pred : list (option R)) :
  predict out users_ind movie_arr test = Ok arr_pred ->
  length arr_pred = length test.
Proof.
  intros Hok. unfold predict in Hok.
  by rewrite (predict_loop_length _ _ _ _ _ _ Hok).
Qed.

Lemma predict_one_per_row_witness :
  length [np_mean [Some 2; Some 4]%R; Some 2%R] = length Scenario.held_out.
Proof.
  apply (predict_one_per_row Scenario.reconstruction Scenario.two_users
           Scenario.two_movies).
  reflexivity.
Defined.

(** X5.  With index maps that stay within the reconstruction, the
    prediction loop returns when every held-out user is in the user index
    map, and raises [KeyError] when some held-out user is not. *)
Theorem predict_unknown_user (out : list (list (option R)))
  (users_ind movie_arr : gmap string nat) (test : list rating_row) :
  in_range out users_ind movie_arr ->
  (Forall (fun ar => is_Some (users_ind !! userId ar)) test ->
   exists arr_pred, predict out users_ind movie_arr test = Ok arr_pred)
  /\ (Exists (fun ar => users_ind !! userId ar = None) test ->
      predict out users_ind movie_arr test = Raise KeyError).
Proof.
  intros Hrange. apply (predict_loop_outcome _ _ _ _ Hrange).
Qed.

Lemma scenario_in_range :
  in_range Scenario.reconstruction Scenario.two_users Scenario.two_movies.
Proof.
  intros u r Hr. unfold Scenario.two_users in Hr.
  assert (Hrow : forall it c, Scenario.two_movies !! it = Some c -> c < 2).
  { intros it c Hc. unfold Scenario.two_movies in Hc.
    apply lookup_insert_Some in Hc as [[_ <-]|[_ Hc]]; [lia|].
    apply lookup_singleton_Some in Hc as [_ <-]. lia. }
  apply lookup_insert_Some in Hr as [[_ <-]|[_ Hr]].
  - eexists. split; [reflexivity|]. exact Hrow.
  - apply lookup_singleton_Some in Hr as [_ <-].
    eexists. split; [reflexivity|]. exact Hrow.
Qed.

Lemma predict_unknown_user_witness :
  predict Scenario.reconstruction Scenario.two_users Scenario.two_movies
          Scenario.held_out_stranger = Raise KeyError.
Proof.
  apply (predict_unknown_user Scenario.reconstruction Scenario.two_users
           Scenario.two_movies Scenario.held_out_stranger scenario_in_range).
  apply Exists_cons. right. apply Exists_cons. left. reflexivity.
Defined.

(** *** The matrix that the builder returns *)

Lemma create_utility_matrix_with_eval (list_of_set : list string -> list string)
  (data : list rating_row) :
  lists_sets list_of_set ->
  exists X,
    create_utility_matrix_with list_of_set data
    = Ok (X, Py.index_dict (list_of_set (map userId data)),
          Py.index_dict (list_of_set (map movieId data)))
    /\ index X = list_of_set (map userId data)
    /\ columns X = list_of_set (map movieId data)
    /\ SVD.shape (values X) (length (index X)) (length (columns X))
    /\ forall u it r c,
         index X !! r = Some u -> columns X !! c = Some it ->
         SVD.at_ (values X) r c = Some (last_rating u it data).
Proof.
  intros Hlists. unfold create_utility_matrix_with.
  set (users := list_of_set (map userId data)).
  set (items := list_of_set (map movieId data)).
  set (ui := Py.index_dict users).
  set (n := length users).
  set (pd0 := map (fun item => (item, replicate n (@None R))) items).
  assert (Husers : NoDup users) by apply Hlists.
  assert (Hitems : NoDup items) by apply Hlists.
  assert (Hui : bijection_onto ui (map userId data) n).
  { apply index_dict_bijection; [done|]. intros k. apply Hlists. }
  destruct Hui as (Hui_dom & Hui_lt & Hui_inj & Hui_surj).
  destruct (store_loop ui n data Hui_inj pd0) as (pd & Hloop & Hkeys & Hlen & Hcells).
  { apply Forall_forall. intros row Hrow. split.
    - subst pd0. rewrite fresh_keys. apply Hlists.
      apply list_elem_of_fmap. eauto.
    - assert (is_Some (ui !! userId row)) as [r Hr].
      { apply Hui_dom. apply list_elem_of_fmap. eauto. }
      eauto. }
  { subst pd0. apply List.Forall_map, Forall_forall. intros item _. simpl.
    apply length_replicate. }
  unfold pd0 in Hkeys. rewrite fresh_keys in Hkeys.
  assert (Hempty : pd = [] -> n = 0).
  { intros ->. simpl in Hkeys. subst n users.
    destruct data as [|row data].
    { simpl. destruct (list_of_set []) as [|x l] eqn:Hnil; [done|].
      assert (x ∈ @nil string) as Hx by (apply Hlists; rewrite Hnil; left).
      by apply elem_of_nil in Hx. }
    assert (movieId row ∈ items) as Hin.
    { apply Hlists. simpl. apply elem_of_cons. by left. }
    rewrite <- Hkeys in Hin. by apply elem_of_nil in Hin. }
  rewrite Hloop, PyFacts.bind_ok, (DataFrame_ok pd n Hlen Hempty), PyFacts.bind_ok.
  unfold set_index. simpl.
  destruct (decide (length users
                    = length (map (fun i => map (fun kc => default None (kc.2 !! i)) pd)
                                  (seq 0 n)))) as [_|Hno].
  2:{ destruct Hno. by rewrite length_map, length_seq. }
  rewrite PyFacts.bind_ok. simpl. rewrite Hkeys.
  eexists. split; [reflexivity|]. simpl.
  split; [done|]. split; [done|]. split.
  - split; [by rewrite length_map, length_seq|].
    apply List.Forall_map, Forall_forall. intros i _.
    by rewrite length_map, <- Hkeys, length_fmap.
  - intros u it r c Hu Hit.
    assert (Hur : ui !! u = Some r) by (by apply index_dict_lookup).
    pose proof (Hui_lt _ _ Hur) as Hr.
    assert (exists col, pd !! c = Some (it, col)) as [col Hcol].
    { rewrite <- Hkeys, list_lookup_fmap in Hit.
      destruct (pd !! c) as [[k col]|]; [|done]. simpl in Hit.
      injection Hit as ->. eauto. }
    assert (Hget : Py.odict_get pd it = Ok col).
    { apply (odict_get_lookup pd it col c); [by rewrite Hkeys | done]. }
    specialize (Hcells u it r Hur). unfold cell_of at 1 in Hcells.
    rewrite Hget in Hcells.
    assert (Hval : col !! r = Some (last_rating u it data)).
    { rewrite Hcells. destruct (last_rating u it data); [done|].
      subst pd0. apply cell_of_fresh; [|done].
      apply list_elem_of_lookup. eauto. }
    apply ImputerFacts.at_Some.
    exists (map (fun kc => default None (kc.2 !! r)) pd). split.
    + by rewrite list_lookup_fmap, lookup_seq_lt.
    + rewrite list_lookup_fmap, Hcol. simpl. by rewrite Hval.
Qed.

Lemma list_set_lists_sets : lists_sets Py.list_set.
Proof.
  intros l. split; [apply list_set_NoDup | intros x; apply elem_of_list_set].
Qed.

Lemma create_utility_matrix_eval (data : list rating_row) :
  exists X,
    create_utility_matrix data
    = Ok (X, Py.index_dict (Py.list_set (map userId data)),
          Py.index_dict (Py.list_set (map movieId data)))
    /\ index X = Py.list_set (map userId data)
    /\ columns X = Py.list_set (map movieId data)
    /\ SVD.shape (values X) (length (index X)) (length (columns X))
    /\ forall u it r c,
         index X !! r = Some u -> columns X !! c = Some it ->
         SVD.at_ (values X) r c = Some (last_rating u it data).
Proof.
  exact (create_utility_matrix_with_eval Py.list_set data list_set_lists_sets).
Qed.

(** X6.  The labels of the frame and the index maps are inverse to each
    other: row [r] is labelled [u] exactly when the user index map sends [u]
    to [r], column [c] is labelled [it] exactly when the item index map
    sends [it] to [c], and no label occurs twice. *)
Theorem create_utility_matrix_labels (data : list rating_row) :
  exists X users_index items_index,
    create_utility_matrix data = Ok (X, users_index, items_index)
    /\ NoDup (index X) /\ NoDup (columns X)
    /\ (forall r u, index X !! r = Some u <-> users_index !! u = Some r)
    /\ (forall c it, columns X !! c = Some it <-> items_index !! it = Some c).
Proof.
  destruct (create_utility_matrix_eval data) as (X & Hok & Hindex & Hcolumns & _).
  exists X, (Py.index_dict (Py.list_set (map userId data))),
    (Py.index_dict (Py.list_set (map movieId data))).
  split; [exact Hok|]. rewrite Hindex, Hcolumns.
  split; [apply list_set_NoDup|]. split; [apply list_set_NoDup|]. split.
  - intros r u. symmetry. apply index_dict_lookup, list_set_NoDup.
  - intros c it. symmetry. apply index_dict_lookup, list_set_NoDup.
Qed.

(** *** The order of the observations *)

Lemma last_rating_Some (u it : string) (data : list rating_row) (v : R) :
  last_rating u it data = Some v ->
  exists row, row ∈ data /\ pair_of row = (u, it) /\ rating row = v.
Proof.
  induction data as [|row data IH]; simpl; [done|].
  destruct (last_rating u it data) as [v'|].
  - intros [= ->]. destruct (IH eq_refl) as (row' & Hin & Hrow).
    exists row'. split; [by apply elem_of_cons; right | done].
  - destruct (decide (userId row = u /\ movieId row = it)) as [[<- <-]|_]; [|done].
    intros [= <-]. exists row. split; [by apply elem_of_cons; left | done].
Qed.

Lemma last_rating_None (u it : string) (data : list rating_row) (row : rating_row) :
  last_rating u it data = None -> row ∈ data -> pair_of row <> (u, it).
Proof.
  induction data as [|row' data IH]; simpl; [by intros _ ?%elem_of_nil|].
  destruct (last_rating u it data) as [v'|]; [done|].
  destruct (decide (userId row' = u /\ movieId row' = it)) as [|Hno]; [done|].
  intros _ [->|Hin]%elem_of_cons.
  - unfold pair_of. intros [= ? ?]. by apply Hno.
  - by apply IH.
Qed.

Lemma pair_determines_row (data : list rating_row) (row row' : rating_row) :
  NoDup (pair_of <$> data) -> row ∈ data -> row' ∈ data ->
  pair_of row = pair_of row' -> row = row'.
Proof.
  intros Hnodup [i Hi]%list_elem_of_lookup [j Hj]%list_elem_of_lookup Hpair.
  assert (i = j) as ->.
  { apply (NoDup_lookup (pair_of <$> data) i j (pair_of row) Hnodup).
    - by rewrite list_lookup_fmap, Hi.
    - by rewrite list_lookup_fmap, Hj, Hpair. }
  congruence.
Qed.

Lemma last_rating_perm (u it : string) (data data' : list rating_row) :
  data ≡ₚ data' -> NoDup (pair_of <$> data) ->
  last_rating u it data = last_rating u it data'.
Proof.
  intros Hperm Hnodup.
  destruct (last_rating u it data) as [v|] eqn:Hv;
    destruct (last_rating u it data') as [v'|] eqn:Hv'; try done.
  - apply last_rating_Some in Hv as (row & Hin & Hpair & <-).
    apply last_rating_Some in Hv' as (row' & Hin' & Hpair' & <-).
    rewrite <- Hperm in Hin'.
    by rewrite (pair_determines_row data row row' Hnodup Hin Hin') by congruence.
  - apply last_rating_Some in Hv as (row & Hin & Hpair & _).
    rewrite Hperm in Hin. by destruct (last_rating_None _ _ _ _ Hv' Hin).
  - apply last_rating_Some in Hv' as (row & Hin & Hpair & _).
    rewrite <- Hperm in Hin. by destruct (last_rating_None _ _ _ _ Hv Hin).
Qed.

(** X7.  When no (user, item) pair is observed twice, the order of the
    observations does not matter, whatever order the sets list the ids in:
    two builds from reordered observations know the same users and items,
    and the cell that the index maps give for a user and an item holds the
    same value in both. *)
Theorem create_utility_matrix_order
  (list_of_set list_of_set' : list string -> list string)
  (data data' : list rating_row) :
  lists_sets list_of_set -> lists_sets list_of_set' ->
  data ≡ₚ data' -> NoDup (pair_of <$> data) ->
  exists X users_index items_index X' users_index' items_index',
    create_utility_matrix_with list_of_set data = Ok (X, users_index, items_index)
    /\ create_utility_matrix_with list_of_set' data'
       = Ok (X', users_index', items_index')
    /\ (forall u, is_Some (users_index !! u) <-> is_Some (users_index' !! u))
    /\ (forall it, is_Some (items_index !! it) <-> is_Some (items_index' !! it))
    /\ forall u it r c r' c',
         users_index !! u = Some r -> items_index !! it = Some c ->
         users_index' !! u = Some r' -> items_index' !! it = Some c' ->
         SVD.at_ (values X) r c = SVD.at_ (values X') r' c'.
Proof.
  intros Hls Hls' Hperm Hnodup.
  destruct (create_utility_matrix_with_eval list_of_set data Hls)
    as (X & Hok & Hi & Hc & _ & Hcells).
  destruct (create_utility_matrix_with_eval list_of_set' data' Hls')
    as (X' & Hok' & Hi' & Hc' & _ & Hcells').
  eexists X, _, _, X', _, _. split; [exact Hok|]. split; [exact Hok'|].
  assert (Hdom : forall (f : rating_row -> string) k,
             is_Some (Py.index_dict (list_of_set (map f data)) !! k)
             <-> is_Some (Py.index_dict (list_of_set' (map f data')) !! k)).
  { intros f k.
    assert (Hin : forall ls d, lists_sets ls ->
               is_Some (Py.index_dict (ls (map f d)) !! k) <-> k ∈ map f d).
    { intros ls d Hl. destruct (Hl (map f d)) as [Hnd Hel]. rewrite <- Hel. split.
      - intros [i Hk]. apply index_dict_lookup in Hk; [|done].
        apply list_elem_of_lookup. eauto.
      - intros [i Hk]%list_elem_of_lookup. exists i. by apply index_dict_lookup. }
    rewrite (Hin _ _ Hls), (Hin _ _ Hls').
    by rewrite (fmap_Permutation f _ _ Hperm). }
  split; [apply Hdom|]. split; [apply Hdom|].
  intros u it r c r' c' Hu Hit Hu' Hit'.
  apply index_dict_lookup in Hu; [|apply Hls].
  apply index_dict_lookup in Hit; [|apply Hls].
  apply index_dict_lookup in Hu'; [|apply Hls'].
  apply index_dict_lookup in Hit'; [|apply Hls'].
  rewrite <- Hi in Hu. rewrite <- Hc in Hit.
  rewrite <- Hi' in Hu'. rewrite <- Hc' in Hit'.
  rewrite (Hcells _ _ _ _ Hu Hit), (Hcells' _ _ _ _ Hu' Hit').
  f_equal. by apply last_rating_perm.
Qed.

(** The builder run with the set order of the model, and run on the
    reversed observations with every set listed in the opposite order. *)
Lemma create_utility_matrix_order_witness :
  exists X users_index items_index X' users_index' items_index',
    create_utility_matrix Scenario.ratings = Ok (X, users_index, items_index)
    /\ create_utility_matrix_with (fun l => reverse (Py.list_set l))
         (reverse Scenario.ratings)
       = Ok (X', users_index', items_index')
    /\ (forall u, is_Some (users_index !! u) <-> is_Some (users_index' !! u))
    /\ (forall it, is_Some (items_index !! it) <-> is_Some (items_index' !! it))
    /\ forall u it r c r' c',
         users_index !! u = Some r -> items_index !! it = Some c ->
         users_index' !! u = Some r' -> items_index' !! it = Some c' ->
         SVD.at_ (values X) r c = SVD.at_ (values X') r' c'.
Proof.
  apply (create_utility_matrix_order Py.list_set (fun l => reverse (Py.list_set l))).
  - apply list_set_lists_sets.
  - intros l. split.
    + rewrite reverse_Permutation. apply list_set_NoDup.
    + intros x. rewrite elem_of_reverse. apply elem_of_list_set.
  - symmetry. apply reverse_Permutation.
  - apply (bool_decide_unpack _). vm_compute. reflexivity.
Defined.

(** *** A user with at most two ratings *)

Lemma few_ratings_rows (sort_values : list rating_row -> list rating_row)
  (data : list rating_row) (u : string) :
  sorts sort_values -> u ∈ map userId data -> length (rows_of u data) <= 2 ->
  (u ∉ map userId (train_test_split sort_values data).2)
  /\ (exists ar, ar ∈ (train_test_split sort_values data).1 /\ userId ar = u).
Proof.
  intros Hsorts Hu Hfew.
  pose proof (SplitFacts.rows_of_nonempty data u Hu) as Hpos.
  destruct (SplitFacts.train_test_split_rows sort_values Hsorts data u Hu)
    as [Htest Htrain].
  destruct (SplitFacts.split_user_partition sort_values Hsorts (rows_of u data) Hpos)
    as (dropped & _ & Hlen_test & Hlen_train & _).
  rewrite <- Htest in Hlen_test. rewrite <- Htrain in Hlen_train. split.
  - intros (row & Hrow & Hin)%list_elem_of_fmap.
    assert (Hin' : row ∈ rows_of u (train_test_split sort_values data).2).
    { unfold rows_of. by apply list_elem_of_filter. }
    destruct (rows_of u (train_test_split sort_values data).2) as [|row' rest];
      [by apply elem_of_nil in Hin'|].
    simpl in Hlen_train. lia.
  - destruct (rows_of u (train_test_split sort_values data).1) as [|ar rest] eqn:Hrows;
      [simpl in Hlen_test; lia|].
    assert (Hin : ar ∈ rows_of u (train_test_split sort_values data).1).
    { rewrite Hrows. apply elem_of_cons. by left. }
    unfold rows_of in Hin. apply list_elem_of_filter in Hin as [Har Hin]. eauto.
Qed.

(** X8.  A user with one or two ratings gets a test row but no train row,
    so the user index map built from the train frame does not know the
    user, and the prediction loop over the test frame raises [KeyError]
    (for any reconstruction of the shape of the utility matrix). *)
Theorem few_ratings_user_raises
  (sort_values : list rating_row -> list rating_row)
  (data : list rating_row) (u : string)
  (X : dataframe) (users_ind movie_arr : gmap string nat)
  (out : list (list (option R))) :
  sorts sort_values -> u ∈ map userId data -> length (rows_of u data) <= 2 ->
  create_utility_matrix (train_test_split sort_values data).2
  = Ok (X, users_ind, movie_arr) ->
  SVD.shape out (length (index X)) (length (columns X)) ->
  users_ind !! u = None
  /\ predict out users_ind movie_arr (train_test_split sort_values data).1
     = Raise KeyError.
Proof.
  intros Hsorts Hu Hfew Hbuilt Hshape.
  destruct (few_ratings_rows sort_values data u Hsorts Hu Hfew)
    as [Hno_train (ar & Har & Huser)].
  set (train := (train_test_split sort_values data).2) in *.
  destruct (create_utility_matrix_eval train) as (X0 & Heval & Hindex & Hcolumns & _).
  rewrite Heval in Hbuilt. injection Hbuilt as -> <- <-.
  assert (Habsent : Py.index_dict (Py.list_set (map userId train)) !! u = None).
  { destruct (Py.index_dict (Py.list_set (map userId train)) !! u) as [r|] eqn:Hr;
      [|done].
    apply index_dict_lookup in Hr; [|apply list_set_NoDup].
    destruct Hno_train. apply elem_of_list_set, list_elem_of_lookup. eauto. }
  split; [exact Habsent|].
  apply predict_loop_outcome.
  - intros u' r Hr. apply index_dict_lookup in Hr; [|apply list_set_NoDup].
    apply lookup_lt_Some in Hr. rewrite <- Hindex in Hr.
    destruct Hshape as [Hrows Hcols].
    destruct (lookup_lt_is_Some_2 out r) as [row Hrow]; [lia|].
    exists row. split; [done|]. intros it c Hc.
    apply index_dict_lookup in Hc; [|apply list_set_NoDup].
    apply lookup_lt_Some in Hc. rewrite <- Hcolumns in Hc.
    rewrite Forall_lookup in Hcols. by rewrite (Hcols _ _ Hrow).
  - apply Exists_exists. exists ar. split; [done|]. by rewrite Huser.
Qed.

Lemma few_ratings_user_raises_witness :
  exists X users_ind movie_arr,
    create_utility_matrix
      (train_test_split (merge_sort by_timestamp) Scenario.ratings).2
    = Ok (X, users_ind, movie_arr)
    /\ users_ind !! "5" = None
    /\ predict (values X) users_ind movie_arr
               (train_test_split (merge_sort by_timestamp) Scenario.ratings).1
       = Raise KeyError.
Proof.
  destruct (create_utility_matrix_eval
              (train_test_split (merge_sort by_timestamp) Scenario.ratings).2)
    as (X & Hok & _ & _ & Hshape & _).
  eexists X, _, _. split; [exact Hok|].
  apply (few_ratings_user_raises (merge_sort by_timestamp) Scenario.ratings "5" X).
  - apply SplitFacts.merge_sort_sorts.
  - simpl. do 2 (apply elem_of_cons; right). apply elem_of_cons. by left.
  - vm_compute. lia.
  - exact Hok.
  - exact Hshape.
Defined.

End PipelineFacts.

(** ** More on the evaluator *)

Module EvaluatorMore.
Import Evaluator EvaluatorFacts.

Lemma sq_err_sum_nonneg (true pred : list R) : (0 <= sq_err_sum true pred)%R.
Proof.
  revert pred. induction true as [|t true IH]; intros [|p pred]; simpl; try lra.
  specialize (IH pred). pose proof (Rle_0_sqr (t - p)) as Hsq.
  unfold Rsqr in Hsq. lra.
Qed.

Lemma sq_err_sum_same (true : list R) : sq_err_sum true true = 0%R.
Proof. induction true as [|t true IH]; simpl; [done|]. rewrite IH. lra. Qed.

Lemma sq_err_sum_sym (true pred : list R) :
  sq_err_sum true pred = sq_err_sum pred true.
Proof.
  revert pred. induction true as [|t true IH]; intros [|p pred]; simpl; try done.
  rewrite IH. lra.
Qed.

Lemma rmse_equal_length (true pred : list R) :
  length true = length pred -> 0 < length true ->
  Cell7.rmse true pred = Ok (mse true pred).
Proof.
  intros Hlen Hpos. unfold Cell7.rmse.
  rewrite series_sub_same_length by done. rewrite PyFacts.bind_ok.
  rewrite sum_squares_zip by done. by apply div_len_positive.
Qed.

(** X9.  On two sequences of one positive length the error is never
    negative, and it is [0] when the predictions equal the true values. *)
Theorem rmse_nonnegative (true pred : list R) :
  length true = length pred -> 0 < length true ->
  exists err, Cell7.rmse true pred = Ok err
              /\ (0 <= err)%R /\ (true = pred -> err = 0%R).
Proof.
  intros Hlen Hpos. exists (mse true pred).
  split; [by apply rmse_equal_length|].
  assert (Hn : (0 < INR (length true))%R) by (apply lt_0_INR; lia).
  assert (Hinv : (0 < 1 / INR (length true))%R).
  { apply Rdiv_lt_0_compat; lra. }
  pose proof (sq_err_sum_nonneg true pred) as Hsum. unfold mse.
  split; [nra|].
  intros <-. rewrite sq_err_sum_same. lra.
Qed.

Lemma rmse_nonnegative_witness :
  exists err, Cell7.rmse [4; 1]%R [2; 2]%R = Ok err
              /\ (0 <= err)%R /\ ([4; 1]%R = [2; 2]%R -> err = 0%R).
Proof. apply rmse_nonnegative; simpl; lia. Defined.

(** X10.  On two sequences of one length the error does not change when
    the true values and the predictions change places. *)
Theorem rmse_symmetric (true pred : list R) :
  length true = length pred ->
  Cell7.rmse true pred = Cell7.rmse pred true.
Proof.
  intros Hlen. destruct (decide (length true = 0)) as [Hzero|Hpos].
  - destruct true, pred; done.
  - rewrite !rmse_equal_length by lia. f_equal. unfold mse.
    by rewrite Hlen, sq_err_sum_sym.
Qed.

Lemma rmse_symmetric_witness :
  Cell7.rmse [4; 1]%R [2; 2]%R = Cell7.rmse [2; 2]%R [4; 1]%R.
Proof. apply rmse_symmetric. reflexivity. Defined.

(** X11.  A prediction list with the single element [c] is treated as the
    constant prediction [c] for every true value: on a non-empty true
    sequence the result is the mean of the [(true_i - c)^2]. *)
Theorem rmse_single_prediction (true : list R) (c : R) :
  0 < length true ->
  Cell7.rmse true [c] = Ok (mse true (replicate (length true) c)).
Proof.
  intros Hpos. unfold Cell7.rmse, series_sub.
  destruct (decide (length [c] = length true)) as [Hone|Hmore].
  - destruct true as [|t [|t' true]]; simpl in *; try lia.
    unfold Py.bind, py_div_len, mse. simpl.
    autorewrite with pysum. f_equal. lra.
  - rewrite PyFacts.bind_ok, sum_squares_constant. by apply div_len_positive.
Qed.

Lemma rmse_single_prediction_witness :
  Cell7.rmse [1; 2; 3]%R [5]%R = Ok (mse [1; 2; 3]%R (replicate 3 5%R)).
Proof. apply (rmse_single_prediction [1; 2; 3]%R 5%R). simpl. lia. Defined.

(** X12.  On an empty true sequence no value is returned: the division by
    the length raises [ZeroDivisionError] when the prediction list has at
    most one element, and the subtraction raises [ValueError] otherwise. *)
Theorem rmse_empty_true (pred : list R) :
  Cell7.rmse [] pred
  = Raise (if decide (length pred <= 1) then ZeroDivisionError else ValueError).
Proof.
  destruct pred as [|p [|q pred]]; try reflexivity.
Qed.

End EvaluatorMore.

(** ** More on the imputer and the engine *)

Module SVDMore.
Import SVD MatrixFacts EngineFacts.
Import ImputerFacts.

(** *** Imputing twice *)

Lemma filled_dense (mat : list (list (option R))) (n m : nat) :
  shape mat n m -> (forall j, j < m -> observed j mat) ->
  dense (filled mat (mean_axis0 mat)).
Proof.
  intros Hshape Hobs. unfold dense. apply Forall_lookup. intros i row' Hi.
  apply Forall_lookup. intros j c' Hj.
  assert (Hat : at_ (filled mat (mean_axis0 mat)) i j = Some c')
    by (apply at_Some; eauto).
  assert (is_Some (at_ mat i j)) as [c Hc].
  { unfold filled in Hi. rewrite list_lookup_fmap in Hi.
    destruct (mat !! i) as [row|] eqn:Hrow; [|done]. simpl in Hi.
    injection Hi as <-. rewrite lookup_zip_with in Hj.
    destruct (row !! j) as [c|] eqn:Hc; [|done].
    exists c. apply at_Some. eauto. }
  rewrite (impute_cell _ _ _ Hshape Hobs _ _ _ Hc) in Hat.
  injection Hat as <-. eauto.
Qed.

(** X14.  On an [n] by [m] matrix each of whose columns has an observed
    cell, imputing the imputed matrix returns it unchanged: after one pass
    nothing is left to fill. *)
Theorem impute_twice (mat : list (list (option R))) (n m : nat) :
  shape mat n m -> (forall j, j < m -> observed j mat) ->
  (impute (impute mat).1).1 = (impute mat).1.
Proof.
  intros Hshape Hobs. unfold impute. simpl.
  pose proof (mean_axis0_observed _ _ _ Hshape Hobs) as Hmu.
  assert (Hlen : length (mean_axis0 mat) = m) by (by rewrite Hmu, length_map, length_seq).
  assert (HF : shape (filled mat (mean_axis0 mat)) n m) by (by apply filled_shape).
  apply (filled_dense_id _ _ n m); [done| |by apply (filled_dense mat n m)].
  rewrite length_mean_axis0.
  destruct (decide (n = 0)) as [->|Hn].
  - destruct Hshape as [Hzero _]. destruct mat; [|done].
    destruct m; [done|]. discriminate Hmu.
  - apply (shape_ncols _ n m HF). lia.
Qed.

Lemma impute_twice_witness :
  (impute (impute Scenario.three_by_four).1).1 = (impute Scenario.three_by_four).1.
Proof.
  apply (impute_twice Scenario.three_by_four 3 4); three_by_four_hyps.
Defined.

(** *** What the engine returns *)

(** X16.  On an [n] by [m] matrix each of whose columns has an observed
    cell, and for a slice bound [k] that keeps at least one component:
    whenever the decomposition has the shapes of a thin SVD and [sqrtm]
    returns a square root of the truncated diagonal, [svd] returns a matrix
    of the shape of its input in which no cell is missing. *)
Theorem svd_shape_and_dense
  (linalg_svd : list (list (option R)) -> list (list R) * list R * list (list R))
  (sqrtm : list (list R) -> list (list R))
  (mat : list (list (option R))) (n m : nat) (k : Z)
  (U : list (list R)) (s : list R) (V : list (list R)) :
  shape mat n m ->
  (forall j, j < m -> observed j mat) ->
  linalg_svd (centered mat) = (U, s, V) ->
  shape U n (Nat.min n m) -> length s = Nat.min n m -> shape V (Nat.min n m) m ->
  0 < Py.slice_stop k (Nat.min n m) ->
  shape (sqrtm (slice_cols k (slice_rows k (np_diag s))))
        (Py.slice_stop k (Nat.min n m)) (Py.slice_stop k (Nat.min n m)) ->
  mat_mul (sqrtm (slice_cols k (slice_rows k (np_diag s))))
          (sqrtm (slice_cols k (slice_rows k (np_diag s))))
  = slice_cols k (slice_rows k (np_diag s)) ->
  exists out, svd linalg_svd sqrtm mat k = Ok out /\ shape out n m /\ dense out.
Proof.
  intros Hmat Hobs Hsvd HU Hs HV Hj HX Hsq.
  eexists. split; [by apply (svd_eval linalg_svd sqrtm mat n m k U s V)|].
  assert (HP : shape (truncated_product U s V k) n m).
  { unfold truncated_product.
    apply (shape_mat_mul _ _ n (Py.slice_stop k (Nat.min n m)) m); [|by apply shape_slice_rows|done].
    unfold mat_mul. rewrite length_map.
    apply (shape_slice_cols k U n (Nat.min n m) HU). }
  split.
  - apply shape_add_row_vector; [done|]. by rewrite length_map, length_seq.
  - unfold dense. apply List.Forall_map, Forall_forall. intros row _.
    apply List.Forall_map, Forall_forall. intros v _. eauto.
Qed.

Lemma svd_shape_and_dense_witness :
  exists out,
    svd Scenario.four_by_two_svd Scenario.diagonal_sqrtm Scenario.four_by_two 1
    = Ok out /\ shape out 4 2 /\ dense out.
Proof.
  apply (svd_shape_and_dense
           Scenario.four_by_two_svd Scenario.diagonal_sqrtm
           Scenario.four_by_two 4 2 1
           Scenario.four_by_two_U Scenario.four_by_two_s Scenario.four_by_two_V).
  - scenario_shape.
  - apply four_by_two_observed.
  - reflexivity.
  - scenario_shape.
  - reflexivity.
  - scenario_shape.
  - unfold Py.slice_stop. simpl. lia.
  - scenario_shape.
  - scenario_sqrtm.
Defined.

End SVDMore.

(** ** More on the topic ranker *)

Module TopicRankerMore.
Import TopicRanker TopicRankerFacts.

Lemma index_some_absent (vocab : list string) (sel : list nat) :
  Exists (fun i => length vocab <= i) sel ->
  mapM (fun i => Py.index vocab i) sel = Raise IndexError.
Proof.
  induction sel as [|i sel IH]; [by intros ?%Exists_nil|].
  intros Hex. simpl.
  destruct (Py.index vocab i) as [w|e] eqn:Hidx; unfold Py.index in Hidx;
    destruct (vocab !! i) as [w'|] eqn:Hw; try done.
  - rewrite PyFacts.bind_ok. apply Exists_cons in Hex as [Hi|Hex].
    + apply lookup_lt_Some in Hw. lia.
    + by rewrite IH.
  - by injection Hidx as <-.
Qed.

(** X17.  When an index that [top_words] selects lies beyond the
    vocabulary, [top_words] raises [IndexError]. *)
Theorem top_words_beyond_vocabulary (argsort : list R -> list nat)
  (vocab : list string) (n_top : nat) (t : list R) :
  Exists (fun i => length vocab <= i) (last_reversed n_top (argsort t)) ->
  top_words argsort vocab n_top t = Raise IndexError.
Proof. intros Hex. unfold top_words. by apply index_some_absent. Qed.

Lemma top_words_beyond_vocabulary_witness :
  top_words insertion_argsort ["a"] num_top_words [1; 1]%R = Raise IndexError.
Proof.
  apply top_words_beyond_vocabulary. rewrite insertion_argsort_ones.
  apply Exists_cons. left. simpl. lia.
Defined.

Lemma selection_all (a : list nat) (n_top : nat) :
  length a <= n_top -> last_reversed n_top a = reverse a.
Proof.
  intros Hlen. unfold last_reversed. apply take_ge. by rewrite length_reverse.
Qed.

Lemma terms_of_selection (vocab : list string) (sel : list nat) (terms : list string) :
  Forall2 (fun i w => vocab !! i = Some w) sel terms ->
  terms = map (fun i => default ""%string (vocab !! i)) sel.
Proof.
  induction 1 as [|i w sel terms Hw _ IH]; [done|].
  simpl. by rewrite Hw, IH.
Qed.

Lemma vocabulary_by_index (vocab : list string) :
  map (fun i => default ""%string (vocab !! i)) (seq 0 (length vocab)) = vocab.
Proof.
  apply list_eq. intros i. rewrite list_lookup_fmap.
  destruct (decide (i < length vocab)) as [Hi|Hi].
  - rewrite lookup_seq_lt by done. simpl.
    by destruct (lookup_lt_is_Some_2 vocab i Hi) as [w ->].
  - rewrite lookup_seq_ge by lia. simpl. symmetry. apply lookup_ge_None_2. lia.
Qed.

(** X18.  When the count is at least the length of the row, [top_words]
    returns every term of the vocabulary once. *)
Theorem top_words_whole_vocabulary (argsort : list R -> list nat)
  (vocab : list string) (n_top : nat) (t : list R) :
  argsort_contract (argsort t) t -> length vocab = length t ->
  length t <= n_top ->
  exists terms, top_words argsort vocab n_top t = Ok terms /\ terms ≡ₚ vocab.
Proof.
  intros Hcontract Hvocab Hn.
  pose proof (contract_length _ _ Hcontract) as Hlen.
  destruct Hcontract as [Hperm Hsorted].
  destruct (index_all_ok vocab (last_reversed n_top (argsort t)))
    as (terms & Hok & Hterms).
  { apply Forall_forall. intros i Hi.
    rewrite selection_all in Hi by lia.
    rewrite elem_of_reverse, Hperm, elem_of_seq in Hi. lia. }
  exists terms. split; [exact Hok|].
  rewrite (terms_of_selection _ _ _ Hterms), selection_all by lia.
  transitivity (map (fun i => default ""%string (vocab !! i)) (seq 0 (length vocab)));
    [|by rewrite (vocabulary_by_index vocab)].
  apply (fmap_Permutation (fun i => default ""%string (vocab !! i))).
  by rewrite reverse_Permutation, Hperm, Hvocab.
Qed.

Lemma top_words_whole_vocabulary_witness :
  exists terms,
    top_words insertion_argsort ["a"; "b"] num_top_words [1; 1]%R = Ok terms
    /\ terms ≡ₚ ["a"; "b"].
Proof.
  apply top_words_whole_vocabulary.
  - apply insertion_argsort_contract.
  - reflexivity.
  - unfold num_top_words. simpl. lia.
Defined.

(** *** One label per topic *)

Lemma map_top_words_ok (argsort : list R -> list nat) (vocab : list string)
  (n_top : nat) (a : list (list R)) :
  Forall (fun t => argsort_contract (argsort t) t /\ length t = length vocab) a ->
  exists topic_words,
    mapM (top_words argsort vocab n_top) a = Ok topic_words
    /\ Forall2 (fun t terms => top_words argsort vocab n_top t = Ok terms)
               a topic_words.
Proof.
  induction 1 as [|t a [Hcontract Hlen] _ (topic_words & Hok & Hall)].
  - exists []. by split.
  - destruct (index_all_ok vocab (last_reversed n_top (argsort t)))
      as (terms & Hterms & _).
    { apply Forall_forall. intros i (p & Hp)%list_elem_of_lookup.
      apply last_reversed_lookup in Hp as (_ & _ & Hi).
      assert (i ∈ argsort t) as Hin by (apply list_elem_of_lookup; eauto).
      apply (contract_bound _ _ _ Hcontract) in Hin. lia. }
    exists (terms :: topic_words). split; [|by constructor].
    simpl. fold (top_words argsort vocab n_top t).
    change (mapM (fun i => Py.index vocab i) (last_reversed n_top (argsort t)))
      with (top_words argsort vocab n_top t) in Hterms.
    by rewrite Hterms, PyFacts.bind_ok, Hok.
Qed.

(** X20.  On rows as long as the vocabulary, each sorted by [np.argsort],
    [show_topics] returns one label per row, in order: the top words of the
    row joined by single spaces. *)
Theorem show_topics_labels (argsort : list R -> list nat) (vocab : list string)
  (n_top : nat) (a : list (list R)) :
  Forall (fun t => argsort_contract (argsort t) t /\ length t = length vocab) a ->
  exists labels,
    show_topics argsort vocab n_top a = Ok labels
    /\ length labels = length a
    /\ forall i t, a !! i = Some t ->
         exists terms, top_words argsort vocab n_top t = Ok terms
                       /\ labels !! i = Some (String.concat " " terms).
Proof.
  intros Hrows.
  destruct (map_top_words_ok argsort vocab n_top a Hrows) as (topic_words & Hok & Hall).
  exists (map (String.concat " ") topic_words). split; [|split].
  - unfold show_topics. by rewrite Hok.
  - rewrite length_map. symmetry. by apply (Forall2_length _ _ _ Hall).
  - intros i t Hi.
    destruct (Forall2_lookup_l _ _ _ _ _ Hall Hi) as (terms & Hterms & Htop).
    exists terms. split; [done|]. by rewrite list_lookup_fmap, Hterms.
Qed.

Lemma show_topics_labels_witness :
  exists labels,
    show_topics insertion_argsort ["a"; "b"; "c"] 2 [[3; 1; 2]%R; [1; 1; 1]%R]
    = Ok labels
    /\ length labels = 2.
Proof.
  destruct (show_topics_labels insertion_argsort ["a"; "b"; "c"] 2
              [[3; 1; 2]%R; [1; 1; 1]%R]) as (labels & Hok & Hlen & _).
  - repeat (constructor; [split; [apply insertion_argsort_contract | reflexivity]|]).
    constructor.
  - exists labels. by split.
Defined.

(** *** Equal weights *)

Lemma insert_index_stable (t : list R) (i : nat) (sorted : list nat) :
  Forall (fun j => j < i) sorted ->
  StronglySorted (by_weight_then_index t) sorted ->
  StronglySorted (by_weight_then_index t) (insert_index t i sorted).
Proof.
  intros Hlt Hsorted. induction Hsorted as [|j sorted Hsorted IH Hj]; simpl.
  - repeat constructor.
  - apply Forall_cons in Hlt as [Hji Hlt].
    destruct (Rlt_dec (weight t i) (weight t j)) as [Hw|Hw].
    + constructor; [by constructor|]. constructor; [by left|].
      eapply Forall_impl; [exact Hj|]. intros x [Hx|[Hx _]]; left; lra.
    + constructor; [by apply IH|]. rewrite insert_index_perm. constructor; [|done].
      destruct (Rlt_dec (weight t j) (weight t i)) as [?|?]; [by left|].
      right. split; [lra | done].
Qed.

Lemma insertion_fold_stable (t : list R) (len start : nat) (acc : list nat) :
  Forall (fun j => j < start) acc ->
  StronglySorted (by_weight_then_index t) acc ->
  StronglySorted (by_weight_then_index t)
    (fold_left (fun sorted i => insert_index t i sorted) (seq start len) acc).
Proof.
  revert start acc. induction len as [|len IH]; intros start acc Hlt Hsorted; [done|].
  simpl. apply IH.
  - rewrite insert_index_perm. constructor; [lia|].
    eapply Forall_impl; [exact Hlt|]. intros j Hj. simpl in *. lia.
  - by apply insert_index_stable.
Qed.

Lemma insertion_argsort_stable (t : list R) : stable (insertion_argsort t) t.
Proof.
  intros p q i j Hpq Hi Hj Hw.
  assert (Hsorted : StronglySorted (by_weight_then_index t) (insertion_argsort t)).
  { apply insertion_fold_stable; constructor. }
  destruct (strongly_sorted_lookup _ _ _ _ _ _ Hsorted Hpq Hi Hj) as [Hlt|[_ Hlt]];
    [lra | done].
Qed.

(** X19.  When [np.argsort] keeps equal weights in ascending order of
    index (a stable sort), [top_words] lists terms of equal weight in
    descending order of index. *)
Theorem top_words_ties_descending (argsort : list R -> list nat)
  (n_top : nat) (t : list R) :
  argsort_contract (argsort t) t -> stable (argsort t) t ->
  forall p q i j,
    p < q ->
    last_reversed n_top (argsort t) !! p = Some i ->
    last_reversed n_top (argsort t) !! q = Some j ->
    weight t i = weight t j -> j < i.
Proof.
  intros _ Hstable p q i j Hpq (Hp & Hpa & Hi)%last_reversed_lookup
    (Hq & Hqa & Hj)%last_reversed_lookup Hw.
  apply (Hstable (length (argsort t) - S q) (length (argsort t) - S p) j i);
    [lia | done | done | done].
Qed.

Lemma top_words_ties_descending_witness :
  last_reversed num_top_words (insertion_argsort [1; 1]%R) !! 0 = Some 1
  /\ last_reversed num_top_words (insertion_argsort [1; 1]%R) !! 1 = Some 0
  /\ 0 < 1.
Proof.
  assert (H0 : last_reversed num_top_words (insertion_argsort [1; 1]%R) !! 0 = Some 1)
    by (by rewrite insertion_argsort_ones).
  assert (H1 : last_reversed num_top_words (insertion_argsort [1; 1]%R) !! 1 = Some 0)
    by (by rewrite insertion_argsort_ones).
  split; [exact H0|]. split; [exact H1|].
  apply (top_words_ties_descending insertion_argsort num_top_words [1; 1]%R
           (insertion_argsort_contract _) (insertion_argsort_stable _) 0 1 1 0);
    [lia | exact H0 | exact H1 | reflexivity].
Defined.

End TopicRankerMore.

(** ** The sweep: predictions handed to the evaluator *)

Module SweepFacts.
Import Predictor Evaluator.

(** X21.  In the sweep the evaluator receives one prediction per test
    rating: once the prediction loop has returned and no prediction is
    undefined, [rmse] on a non-empty test frame raises nothing and returns
    the mean squared error of the predictions. *)
Theorem sweep_error_defined (out : list (list (option R)))
  (users_ind movie_arr : gmap string nat) (test : list rating_row)
  (preds : list R) :
  predict out users_ind movie_arr test = Ok (Some <$> preds) ->
  test <> [] ->
  Cell7.rmse (map rating test) preds = Ok (mse (map rating test) preds).
Proof.
  intros Hpred Htest. unfold predict in Hpred.
  apply PipelineFacts.predict_loop_length in Hpred.
  rewrite length_fmap in Hpred. simpl in Hpred.
  apply EvaluatorMore.rmse_equal_length.
  - by rewrite length_map.
  - rewrite length_map. destruct test; [done | simpl; lia].
Qed.

Lemma sweep_error_defined_witness :
  Cell7.rmse (map rating Scenario.held_out) [3; 2]%R
  = Ok (mse (map rating Scenario.held_out) [3; 2]%R).
Proof.
  apply (sweep_error_defined Scenario.reconstruction Scenario.two_users
           Scenario.two_movies).
  - unfold predict. rewrite PredictorFacts.predict_loop_ok.
    + f_equal. simpl. unfold predicted_value, at_cell.
      replace (Scenario.two_users !! "5") with (Some 1) by (by vm_compute).
      replace (Scenario.two_movies !! "unseen_item") with (@None nat) by (by vm_compute).
      replace (Scenario.two_movies !! "10") with (Some 0) by (by vm_compute).
      simpl. unfold np_mean, Py.sum. simpl. do 3 f_equal. lra.
    + repeat constructor; exists 1, [Some 2; Some 4]%R;
        (split; [by vm_compute | split; [reflexivity|]]);
        intros c Hc; vm_compute in Hc; [discriminate | injection Hc as <-; simpl; lia].
  - done.
Defined.

End SweepFacts.
